(** * Risk scoring of [eda_analysis.py]: [BankingDelinquencyEDA.calculate_risk_score]

    The method computes a weighted risk score column from four raw columns
    of a pandas DataFrame and bins it into three tiers with [pd.cut].

    The embedding follows the code: a DataFrame is a finite map from column
    names to columns, a column ([Series]) carries its dtype, the arithmetic
    is the element-wise arithmetic of pandas, and [pd.cut] is modelled with
    its default arguments ([right=True], [include_lowest=False]).

    The arithmetic on floating-point cells is a parameter ([Arith]); it is
    instantiated twice: with the binary64 numbers of numpy's [float64]
    ([binary64], on Rocq's primitive floats) and with exact rationals
    extended by a missing value ([exact]), the reals of the data model.
    What depends on the order of the doubles, on NaN or on rounding is
    proved from the IEEE 754 specification of the primitive floats
    ([F64], [Rounding]).

    Beside the method the file covers what the rest of the class does
    with the two columns it leaves: the tier counts of
    [plot_risk_distribution] and [generate_insights_report], the high-risk
    selection and the income brackets of the report, and the missing
    values of [data_overview]. *)

From Stdlib Require Import ZArith Floats QArith Qpower Lqa Lia Bool.
From stdpp Require Import gmap strings list fin_maps sorting.

Set Warnings "-inexact-float".
Set Default Proof Using "Type*".

(** ** Arithmetic of a float64 cell *)

Class Arith (F : Type) := {
  (** conversion of an [int64] to the cell type ([astype(float64)]) *)
  of_int : Z -> F;
  (** a decimal literal of the program text, given as the rational it denotes *)
  lit : Q -> F;
  add : F -> F -> F;
  sub : F -> F -> F;
  mul : F -> F -> F;
  div : F -> F -> F;
  ltb : F -> F -> bool;
  eqb : F -> F -> bool;
  (** [pd.isna] on a cell *)
  isna : F -> bool
}.

Declare Scope arith_scope.
Delimit Scope arith_scope with arith.
Infix "⊕" := add (at level 50, left associativity) : arith_scope.
Infix "⊖" := sub (at level 50, left associativity) : arith_scope.
Infix "⊗" := mul (at level 40, left associativity) : arith_scope.
Infix "⊘" := div (at level 40, left associativity) : arith_scope.
Open Scope arith_scope.

(** *** binary64: numpy's float64 *)

Module Binary64.

(** [int64] to [float64], rounding to nearest even. *)
Definition of_Z (z : Z) : float :=
  SF2Prim (binary_normalize prec emax z 0 false).

(** A decimal literal [n/d] is read as the double nearest to it; for the
    literals of the program [n] and [d] are below [2^53], so the correctly
    rounded quotient of the two is that double (see [literals]). *)
Definition of_Q (q : Q) : float :=
  (of_Z (Qnum q) / of_Z (Zpos (Qden q)))%float.

(** An order-embedding of the numbers (NaN apart) into triples of
    integers under the lexicographic order. *)
Definition key (f : spec_float) : option (Z * Z * Z) :=
  match f with
  | S754_nan => None
  | S754_infinity true => Some (-2, 0, 0)%Z
  | S754_infinity false => Some (2, 0, 0)%Z
  | S754_zero _ => Some (0, 0, 0)%Z
  | S754_finite true m e => Some (-1, - e, - Zpos m)%Z
  | S754_finite false m e => Some (1, e, Zpos m)%Z
  end.

Definition lex_lt (a b : Z * Z * Z) : Prop :=
  let '(a1, a2, a3) := a in
  let '(b1, b2, b3) := b in
  (a1 < b1 \/ (a1 = b1 /\ (a2 < b2 \/ (a2 = b2 /\ a3 < b3))))%Z.

Definition fkey (x : float) : option (Z * Z * Z) := key (Prim2SF x).

(** *** Bounds on the value of a double

    For the range of the score the doubles are read as rationals. *)

(** The real [m * 2^e]. *)
Definition val (m e : Z) : Q := (inject_Z m * 2 ^ e)%Q.

(** The spacing of the doubles in [1, 2). *)
Definition eps : Q := (2 ^ (-52))%Q.
Arguments eps : simpl never.

(** [f] is a float between 0 and [q]. *)
Definition bound_ok (f : spec_float) (q : Q) : Prop :=
  match f with
  | S754_zero _ => (0 <= q)%Q
  | S754_finite false m e => (val (Zpos m) e <= q)%Q
  | _ => False
  end.

(** [0 <= x <= q]. *)
Definition within (x : float) (q : Q) : Prop := bound_ok (Prim2SF x) q.

(** The same, decided on a given double. *)
Definition withinb (x : float) (q : Q) : bool :=
  match Prim2SF x with
  | S754_zero _ => Qle_bool 0 q
  | S754_finite false m e => Qle_bool (val (Zpos m) e) q
  | _ => false
  end.

End Binary64.

#[export] Instance binary64 : Arith float := {|
  of_int := Binary64.of_Z;
  lit := Binary64.of_Q;
  add := PrimFloat.add;
  sub := PrimFloat.sub;
  mul := PrimFloat.mul;
  div := PrimFloat.div;
  ltb := PrimFloat.ltb;
  eqb := PrimFloat.eqb;
  isna := PrimFloat.is_nan
|}.

(** *** exact: rationals with a missing value *)

Module Exact.

(** [None] is the missing value (NaN); it is absorbing for the four
    operations and compares false with everything, as NaN does. *)
Definition lift2 (f : Q -> Q -> Q) (a b : option Q) : option Q :=
  match a, b with
  | Some x, Some y => Some (f x y)
  | _, _ => None
  end.

(** Division by zero has no rational value; the program divides by the
    constants 6.0 and 850.0 only. *)
Definition qdiv (a b : option Q) : option Q :=
  match a, b with
  | Some x, Some y => if Qeq_bool y 0 then None else Some (x / y)%Q
  | _, _ => None
  end.

Definition qltb (a b : option Q) : bool :=
  match a, b with
  | Some x, Some y => negb (Qle_bool y x)
  | _, _ => false
  end.

Definition qeqb (a b : option Q) : bool :=
  match a, b with
  | Some x, Some y => Qeq_bool x y
  | _, _ => false
  end.

Definition qisna (a : option Q) : bool :=
  match a with Some _ => false | None => true end.

End Exact.

#[export] Instance exact : Arith (option Q) := {|
  of_int := fun z => Some (inject_Z z);
  lit := fun q => Some q;
  add := Exact.lift2 Qplus;
  sub := Exact.lift2 Qminus;
  mul := Exact.lift2 Qmult;
  div := Exact.qdiv;
  ltb := Exact.qltb;
  eqb := Exact.qeqb;
  isna := Exact.qisna
|}.

(** ** Errors, columns and frames *)

Inductive Err :=
  | KeyError (k : string)   (** [df[k]] on an absent column *)
  | TypeError               (** arithmetic on a non-numeric column, or [self.df] is [None] *)
  | ValueError.             (** [pd.cut] refuses its bins or labels *)

(** The result of a step that may raise: the error monad on [Err], with
    stdpp's [x ← m; k] for sequencing. *)
Abbreviation M := (sum Err).

#[export] Instance err_ret : MRet M := fun _ a => inr a.
#[export] Instance err_bind : MBind M := fun _ _ k m =>
  match m with
  | inl e => inl e
  | inr a => k a
  end.

Definition ret {A} (a : A) : M A := mret a.
Definition raise {A} (e : Err) : M A := inl e.

(** numpy's [int64] arithmetic wraps around silently. *)
Definition wrap64 (z : Z) : Z :=
  ((z + 2 ^ 63) mod 2 ^ 64 - 2 ^ 63)%Z.

Arguments lit {F _} q%_Q.

(** A column with its dtype. [CatS] is an ordered [Categorical]: per row
    the position of its category in [cats], or [None] for NaN (pandas
    stores the code -1). *)
Inductive Series (F : Type) :=
  | IntS (xs : list Z)
  | FloatS (xs : list F)
  | ObjS (xs : list string)
  | CatS (codes : list (option nat)) (cats : list string).

Arguments IntS {F} xs.
Arguments FloatS {F} xs.
Arguments ObjS {F} xs.
Arguments CatS {F} codes cats.

(** The frame: column name to column. *)
Abbreviation DataFrame F := (gmap string (Series F)).

(** One cell of a row. *)
Inductive Cell (F : Type) :=
  | CInt (z : Z)
  | CFloat (x : F)
  | CStr (s : string)
  | CCat (label : option string).   (** [None]: NaN *)

Arguments CInt {F} z.
Arguments CFloat {F} x.
Arguments CStr {F} s.
Arguments CCat {F} label.

Section Model.

Context {F : Type} {A : Arith F}.

Local Abbreviation Series := (Series F).
Local Abbreviation DataFrame := (DataFrame F).
Local Abbreviation Cell := (Cell F).

(** numpy promotes an [int64] operand to [float64] when the other
    operand is a float; other dtypes have no such arithmetic: on a column
    of strings the first element raises the TypeError, on a categorical
    the dtype does.  (A column of strings without any row has no element
    to raise on; the properties below that speak of this TypeError are
    stated for a column with a row.) *)
Definition as_float64 (s : Series) : M (list F) :=
  match s with
  | IntS xs => ret (of_int <$> xs)
  | FloatS xs => ret xs
  | _ => raise TypeError
  end.

(** [s / c] for a float scalar [c]: true division, always float64. *)
Definition truediv (s : Series) (c : F) : M (list F) :=
  v ← as_float64 s;
  ret (fmap (M:=list) (fun x => div x c) v).

(** [s * c] for a float scalar [c]. *)
Definition times (s : Series) (c : F) : M (list F) :=
  v ← as_float64 s;
  ret (fmap (M:=list) (fun x => mul x c) v).

(** [k - s] for a Python int [k]: stays [int64] on an integer column;
    a TypeError on strings and categories, as for [as_float64]. *)
Definition rsub (k : Z) (s : Series) : M Series :=
  match s with
  | IntS xs => ret (IntS ((fun x => wrap64 (k - x)) <$> xs))
  | FloatS xs => ret (FloatS ((fun x => sub (of_int k) x) <$> xs))
  | _ => raise TypeError
  end.

(** Element-wise operations on float64 columns of one frame (their
    indexes are identical, so pandas does no realignment). *)
Definition vtimes (xs : list F) (c : F) : list F := (fun x => mul x c) <$> xs.
Definition vadd (xs ys : list F) : list F := zip_with add xs ys.

(** [df[k]] *)
Definition getitem (df : DataFrame) (k : string) : M Series :=
  match df !! k with
  | Some s => ret s
  | None => raise (KeyError k)
  end.

(** [df[k] = s] *)
Definition setitem (df : DataFrame) (k : string) (s : Series) : DataFrame :=
  <[k := s]> df.

(** *** [pd.cut(x, bins, labels=labels)]

    With the defaults [right=True], [include_lowest=False],
    [ordered=True], [duplicates='raise']. *)

(** numpy's order for sorting and searching puts NaN after every number. *)
Definition np_less (a b : F) : bool :=
  ltb a b || (isna b && negb (isna a)).

(** [bins.searchsorted(x, side='left')]: the insertion point [i] with
    [bins[i-1] < x <= bins[i]]; on increasing bins, the number of bins
    below [x]. *)
Definition searchsorted_left (bins : list F) (x : F) : nat :=
  length (List.filter (fun b => np_less b x) bins).

(** Some bin edge is below its predecessor. *)
Fixpoint decreases (bins : list F) : bool :=
  match bins with
  | a :: (b :: _) as rest => ltb b a || decreases rest
  | _ => false
  end.

(** [len(unique(bins)) < len(bins)]; [unique] keeps one NaN. *)
Definition same (a b : F) : bool := eqb a b || (isna a && isna b).
Fixpoint has_duplicates (bins : list F) : bool :=
  match bins with
  | [] => false
  | a :: rest => existsb (same a) rest || has_duplicates rest
  end.

(** The code of one value: the bin it falls in, [None] for NaN, for a
    value at or below the first edge and for a value above the last. *)
Definition cut_code (bins : list F) (v : F) : option nat :=
  let ids := searchsorted_left bins v in
  if isna v || (ids =? length bins)%nat || (ids =? 0)%nat
  then None
  else Some (ids - 1)%nat.

Definition cut (x : Series) (bins : list F) (labels : list string) : M Series :=
  v ← as_float64 x;
  if decreases bins then raise ValueError
  else if has_duplicates bins && negb (length bins =? 2)%nat then raise ValueError
  else if negb (length labels =? length bins - 1)%nat then raise ValueError
  else ret (CatS (cut_code bins <$> v) labels).

(** ** The method *)

(** The object: [self.df] ([None] until [load_data] has run) and what
    has been printed. *)
Record EDA := {
  df : option DataFrame;
  stdout : list string
}.

(** Lines 69-74: the right-hand side of [self.df['risk_score'] = ...]. *)
Definition risk_score_expr (d : DataFrame) : M (list F) :=
  mp ← getitem d "missed_payments";
  t1 ← truediv mp (lit 6.0);
  cu ← getitem d "credit_utilization";
  t2 ← times cu (lit 0.25);
  cs ← getitem d "credit_score";
  r ← rsub 850%Z cs;
  t3 ← truediv r (lit 850.0);
  dti ← getitem d "debt_to_income_ratio";
  t4 ← times dti (lit 0.20);
  ret (vadd (vadd (vadd (vtimes t1 (lit 0.30)) t2)
                  (vtimes t3 (lit 0.25)))
            t4).

Definition set_risk_score (d : DataFrame) : M DataFrame :=
  scores ← risk_score_expr d;
  ret (setitem d "risk_score" (FloatS scores)).

Definition tier_bins : list F := [lit 0; lit 0.30; lit 0.70; lit 1.0].
Definition tier_labels : list string := ["LOW"; "MEDIUM"; "HIGH"].

(** Lines 77-81: [self.df['risk_tier'] = pd.cut(self.df['risk_score'], ...)]. *)
Definition set_risk_tier (d : DataFrame) : M DataFrame :=
  rs ← getitem d "risk_score";
  tiers ← cut rs tier_bins tier_labels;
  ret (setitem d "risk_tier" tiers).

Definition risk_message : string :=
  String (Ascii.ascii_of_nat 10) "Risk Score calculated and added to dataframe".

Definition calculate_risk_score (self : EDA) : M EDA :=
  match df self with
  | None => raise TypeError
  | Some d =>
      d1 ← set_risk_score d;
      d2 ← set_risk_tier d1;
      ret {| df := Some d2; stdout := stdout self ++ [risk_message] |}
  end.

(** ** Rows

    The record at position [i] of a frame ([df.iloc[i]]): its cell in
    every column that reaches position [i]. *)

Definition cell_at (s : Series) (i : nat) : option Cell :=
  match s with
  | IntS xs => CInt <$> xs !! i
  | FloatS xs => CFloat <$> xs !! i
  | ObjS xs => CStr <$> xs !! i
  | CatS codes cats => (fun c => CCat (c ≫= (cats !!.))) <$> codes !! i
  end.

Definition row (d : DataFrame) (i : nat) : gmap string Cell :=
  omap (fun s => cell_at s i) d.

(** The columns the score reads, and what makes the expression
    evaluate: each is present with a numeric dtype. *)
Definition score_columns : list string :=
  ["missed_payments"; "credit_utilization"; "credit_score";
   "debt_to_income_ratio"].

Definition numeric (s : Series) : bool :=
  match s with
  | IntS _ | FloatS _ => true
  | _ => false
  end.

Definition scorable (d : DataFrame) : Prop :=
  forall k, k ∈ score_columns -> exists s, d !! k = Some s /\ numeric s = true.

(** [pd.cut] accepts the bins of the program. *)
Definition bins_accepted : Prop :=
  decreases tier_bins = false /\ has_duplicates tier_bins = false.

(** ** The operations on one record, in the words of the specification *)

(** A numeric field read as a real. *)
Definition to_float (c : Cell) : option F :=
  match c with
  | CInt z => Some (of_int z)
  | CFloat x => Some x
  | _ => None
  end.

(** [k - c] for a Python int [k]: on an integer cell the difference is
    taken in [int64], as numpy does, on a float cell in float64. *)
Definition minus_from (k : Z) (c : Cell) : option Cell :=
  match c with
  | CInt z => Some (CInt (wrap64 (k - z)))
  | CFloat x => Some (CFloat (sub (of_int k) x))
  | _ => None
  end.

(** [(mp / 6.0) * 0.30 + cu * 0.25 + (gap / 850.0) * 0.25 + dti * 0.20]
    where [gap] is [850 - credit_score]. *)
Definition score_formula (mp cu gap dti : F) : F :=
  (mp ⊘ lit 6.0) ⊗ lit 0.30
  ⊕ cu ⊗ lit 0.25
  ⊕ (gap ⊘ lit 850.0) ⊗ lit 0.25
  ⊕ dti ⊗ lit 0.20.

(** [compute_risk_score(record)]: the formula on the four fields of a
    record, [None] when one of them is absent or not a number. *)
Definition compute_risk_score (r : gmap string Cell) : option F :=
  mp ← r !! "missed_payments" ≫= to_float;
  cu ← r !! "credit_utilization" ≫= to_float;
  gap ← (r !! "credit_score" ≫= minus_from 850%Z) ≫= to_float;
  dti ← r !! "debt_to_income_ratio" ≫= to_float;
  Some (score_formula mp cu gap dti).

(** [assign_risk_tier(score)]: the label [pd.cut] gives one score, [None]
    when it gives NaN. *)
Definition tier_code (score : F) : option nat := cut_code tier_bins score.
Definition assign_risk_tier (score : F) : option string :=
  tier_code score ≫= (tier_labels !!.).

(** The rank of a label in the ordered categorical: its position among
    the categories, [LOW < MEDIUM < HIGH]. *)
Definition tier_rank (label : string) : option nat :=
  fst <$> list_find (fun c => c = label) tier_labels.

(** The frame the method leaves, from the scores it computed. *)
Definition scored_frame (d : DataFrame) (xs : list F) : DataFrame :=
  <["risk_tier" := CatS (tier_code <$> xs) tier_labels]>
    (<["risk_score" := FloatS xs]> d).

End Model.

Arguments EDA F : clear implicits.
Arguments cut : simpl never.
Arguments risk_score_expr : simpl never.
Arguments tier_bins : simpl never.
Arguments tier_code : simpl never.

(** A frame of five customers, in binary64. *)
Definition sample : DataFrame float :=
  {[ "customer_id" := ObjS ["C001"; "C002"; "C003"; "C004"; "C005"];
     "income" := FloatS [52000; nan; 31000; 120000; 18000]%float;
     "missed_payments" := IntS [6; 10; 0; 0; 30]%Z;
     "credit_utilization" := FloatS [1.0; 0.0; nan; 0.0; 0.0]%float;
     "credit_score" := IntS [300; 850; 850; 850; 850]%Z;
     "debt_to_income_ratio" := FloatS [1.0; 0.0; 0.0; 0.0; 0.0]%float ]}.

(** The same customers with exact fields. *)
Definition sample_exact : DataFrame (option Q) :=
  {[ "customer_id" := ObjS ["C001"; "C002"; "C003"; "C004"; "C005"];
     "income" := FloatS [Some 52000; None; Some 31000; Some 120000; Some 18000]%Q;
     "missed_payments" := IntS [6; 10; 0; 0; 30]%Z;
     "credit_utilization" := FloatS [Some 1.0; Some 0.0; None; Some 0.0; Some 0.0]%Q;
     "credit_score" := IntS [300; 850; 850; 850; 850]%Z;
     "debt_to_income_ratio" :=
       FloatS [Some 1.0; Some 0.0; Some 0.0; Some 0.0; Some 0.0]%Q ]}.

(** An integer field [z] of a record, as an [int64] or as a [float64]
    cell (pandas stores an integer column as floats once it has a NaN). *)
Definition int_valued (c : option (Cell float)) (z : Z) : Prop :=
  c = Some (CInt z) \/ c = Some (CFloat (of_int z)).

(** The object after [load_data] delivered [sample]. *)
Definition loaded : EDA float := {| df := Some sample; stdout := [] |}.
Definition loaded_exact : EDA (option Q) :=
  {| df := Some sample_exact; stdout := [] |}.

(** ** Counting and selecting rows

    What [plot_risk_distribution] and [generate_insights_report] do with
    the columns [calculate_risk_score] leaves. *)

Section Report.

Context {F : Type} {A : Arith F}.

Local Abbreviation Series := (Series F).
Local Abbreviation DataFrame := (DataFrame F).

(** [len(s)] *)
Definition series_len (s : Series) : nat :=
  match s with
  | IntS xs => length xs
  | FloatS xs => length xs
  | ObjS xs => length xs
  | CatS codes _ => length codes
  end.

(** Every column of the frame has [n] rows ([len(df) == n]). *)
Definition rectangular (d : DataFrame) (n : nat) : Prop :=
  map_Forall (fun _ s => series_len s = n) d.

(** *** [s.value_counts()] on a categorical column *)

(** [Categorical.value_counts()]: one entry per category, in the order of
    the categories, also for a category no row has; NaN rows are not
    counted. *)
Definition category_counts (codes : list (option nat)) (cats : list string)
    : list (string * nat) :=
  imap (fun j c => (c, length (filter (fun x => x = Some j) codes))) cats.

(** [sort_values(ascending=False)]: the larger count first, entries of
    equal count in the order they had. *)
Fixpoint insert_by_count (e : string * nat) (l : list (string * nat))
    : list (string * nat) :=
  match l with
  | [] => [e]
  | e' :: l' =>
      if (e'.2 <=? e.2)%nat then e :: l else e' :: insert_by_count e l'
  end.

Definition sort_by_count (l : list (string * nat)) : list (string * nat) :=
  foldr insert_by_count [] l.

Definition value_counts (codes : list (option nat)) (cats : list string)
    : list (string * nat) :=
  sort_by_count (category_counts codes cats).

(** The number of scores with tier [t]; [None]: without a tier. *)
Definition tier_count (xs : list F) (t : option string) : nat :=
  length (filter (fun x => assign_risk_tier x = t) xs).

(** [tier in risk_dist]: membership in the index. *)
Definition contains (risk_dist : list (string * nat)) (tier : string) : bool :=
  bool_decide (tier ∈ risk_dist.*1).

(** [risk_dist[tier]] *)
Definition loc (risk_dist : list (string * nat)) (tier : string) : option nat :=
  (fun e => e.2.2) <$> list_find (fun e => e.1 = tier) risk_dist.

(** Lines 242-247 of the report: the tiers that get a line, in the order
    of the loop, each with its [count]. *)
Definition tier_breakdown (risk_dist : list (string * nat))
    : list (string * nat) :=
  omap (fun tier =>
          if contains risk_dist tier
          then (fun count => (tier, count)) <$> loc risk_dist tier
          else None)
       ["HIGH"; "MEDIUM"; "LOW"].

(** Lines 91-93 of [plot_risk_distribution]: one bar per entry of
    [risk_counts], in its order, with the colours of the list taken in
    turn (matplotlib cycles through them). *)
Definition bar_colours : list string := ["green"; "orange"; "red"].

Definition risk_bars (risk_counts : list (string * nat))
    : list (string * nat * string) :=
  imap (fun i e => (e.1, e.2, bar_colours !!! (i mod length bar_colours)))
       risk_counts.

(** *** [df[df[k] == label]] *)

(** [s == label] for a string [label]: a categorical cell equals its
    label, NaN equals nothing, and a number never equals a string. *)
Definition eq_scalar (s : Series) (label : string) : list bool :=
  match s with
  | IntS xs => (fun _ => false) <$> xs
  | FloatS xs => (fun _ => false) <$> xs
  | ObjS xs => (fun x => bool_decide (x = label)) <$> xs
  | CatS codes cats =>
      (fun c => bool_decide (c ≫= (cats !!.) = Some label)) <$> codes
  end.

(** The entries of [xs] at the positions where [mask] holds. *)
Fixpoint select {X} (xs : list X) (mask : list bool) : list X :=
  match xs, mask with
  | x :: xs', b :: mask' =>
      if b then x :: select xs' mask' else select xs' mask'
  | _, _ => []
  end.

(** [s[mask]] *)
Definition series_mask (s : Series) (mask : list bool) : Series :=
  match s with
  | IntS xs => IntS (select xs mask)
  | FloatS xs => FloatS (select xs mask)
  | ObjS xs => ObjS (select xs mask)
  | CatS codes cats => CatS (select codes mask) cats
  end.

(** [df[mask]] for a boolean column on the index of [df]. *)
Definition getitem_mask (d : DataFrame) (mask : list bool) : DataFrame :=
  (fun s => series_mask s mask) <$> d.

(** Line 252: [high_risk = self.df[self.df['risk_tier'] == 'HIGH']]. *)
Definition high_risk (d : DataFrame) : M DataFrame :=
  t ← getitem d "risk_tier";
  ret (getitem_mask d (eq_scalar t "HIGH")).

(** The positions at which a mask holds, in increasing order. *)
Fixpoint true_positions (mask : list bool) : list nat :=
  match mask with
  | [] => []
  | b :: mask' =>
      (if b then [0%nat] else []) ++ (S <$> true_positions mask')
  end.

End Report.

(** *** The income brackets of the report

    Lines 275-279. The bins [[0, 30000, 80000, 150000, float('inf')]]
    become a float64 index. *)

Definition income_bins : list float :=
  [of_int 0; of_int 30000; of_int 80000; of_int 150000; infinity].

Definition income_labels : list string :=
  ["<30K"; "30K-80K"; "80K-150K"; ">150K"].

Definition set_income_bracket (d : DataFrame float) : M (DataFrame float) :=
  inc ← getitem d "income";
  b ← cut inc income_bins income_labels;
  ret (setitem d "income_bracket" b).

(** The bracket [pd.cut] gives one income, [None] when it gives NaN. *)
Definition income_code (x : float) : option nat := cut_code income_bins x.
Definition income_bracket (x : float) : option string :=
  income_code x ≫= (income_labels !!.).

(** The rank of a bracket in the ordered categorical. *)
Definition bracket_rank (label : string) : option nat :=
  fst <$> list_find (fun c => c = label) income_labels.

Arguments income_bins : simpl never.
Arguments income_code : simpl never.

(** ** The missing values of [data_overview] *)

Section Overview.

Context {F : Type} {A : Arith F}.

(** [s.isnull()]: NaN in a float column and the code -1 of a categorical
    are missing; an [int64] cell never is, and an object column is
    modelled with strings only. *)
Definition isnull (s : Series F) : list bool :=
  match s with
  | IntS xs => (fun _ => false) <$> xs
  | FloatS xs => isna <$> xs
  | ObjS xs => (fun _ => false) <$> xs
  | CatS codes _ => (fun c => bool_decide (c = None)) <$> codes
  end.

(** [s.isnull().sum()] *)
Definition missing_count (s : Series F) : nat :=
  length (filter (fun b => b = true) (isnull s)).

(** [len(df)]: the rows of its columns. *)
Definition nrows (d : DataFrame F) : nat :=
  map_fold (fun _ s n => max (series_len s) n) 0%nat d.

(** Lines 56-62: the rows of [missing_df] that are printed, per column
    the missing count and the percentage [(missing / len(df)) * 100]. *)
Definition missing_table (d : DataFrame F) : gmap string (Z * F) :=
  filter (fun kv => (0 < kv.2.1)%Z)
    ((fun s =>
        let missing := Z.of_nat (missing_count s) in
        (missing, (of_int missing ⊘ of_int (Z.of_nat (nrows d))) ⊗ of_int 100))
       <$> d).

End Overview.

(** Three customers, two of them at high risk. *)
Definition sample_risky : DataFrame float :=
  {[ "customer_id" := ObjS ["R001"; "R002"; "R003"];
     "income" := FloatS [25000; 0; 210000]%float;
     "missed_payments" := IntS [6; 6; 0]%Z;
     "credit_utilization" := FloatS [1.0; 1.0; 0.0]%float;
     "credit_score" := IntS [300; 300; 850]%Z;
     "debt_to_income_ratio" := FloatS [1.0; 1.0; 0.5]%float ]}.

Definition loaded_risky : EDA float :=
  {| df := Some sample_risky; stdout := [] |}.

(** One customer whose credit score is above 850: the score is negative. *)
Definition sample_over_850 : DataFrame float :=
  {[ "customer_id" := ObjS ["N001"];
     "income" := FloatS [40000]%float;
     "missed_payments" := IntS [0]%Z;
     "credit_utilization" := FloatS [0.0]%float;
     "credit_score" := IntS [900]%Z;
     "debt_to_income_ratio" := FloatS [0.0]%float ]}.

Definition loaded_over_850 : EDA float :=
  {| df := Some sample_over_850; stdout := [] |}.

(** [sample] without its credit scores. *)
Definition sample_no_credit_score : DataFrame float :=
  delete "credit_score" sample.

(** * Properties *)

Section Theory.

Context {F : Type} {A : Arith F}.
Implicit Types (d : DataFrame F) (s : Series F) (r : gmap string (Cell F)).

Lemma bind_inr {X Y} (m : M X) (k : X -> M Y) (y : Y) :
  m ≫= k = inr y <-> exists x, m = inr x /\ k x = inr y.
Proof.
  destruct m as [e|x]; simpl; split.
  - discriminate.
  - intros (x & Hx & _). discriminate.
  - eauto.
  - intros (x' & [= <-] & ?). done.
Qed.

Lemma getitem_inr d k s : getitem d k = inr s <-> d !! k = Some s.
Proof.
  unfold getitem, ret, raise, mret, err_ret.
  destruct (d !! k); split; congruence.
Qed.

Lemma row_lookup d i k : row d i !! k = d !! k ≫= (fun s => cell_at s i).
Proof. unfold row. apply lookup_omap. Qed.

Lemma as_float64_lookup s v i :
  as_float64 s = inr v -> v !! i = cell_at s i ≫= to_float.
Proof.
  destruct s; cbn; intros [= <-].
  - rewrite list_lookup_fmap. by destruct (xs !! i).
  - by destruct (xs !! i).
Qed.

Lemma rsub_lookup k s s' i :
  rsub k s = inr s' -> cell_at s' i = cell_at s i ≫= minus_from k.
Proof.
  destruct s; cbn; intros [= <-]; simpl;
    rewrite list_lookup_fmap; by destruct (xs !! i).
Qed.

Lemma truediv_lookup s c v i :
  truediv s c = inr v ->
  v !! i = (fun x => div x c) <$> (cell_at s i ≫= to_float).
Proof.
  unfold truediv. intros (w & Hw & [= <-])%bind_inr.
  rewrite list_lookup_fmap. by rewrite (as_float64_lookup _ _ _ Hw).
Qed.

Lemma times_lookup s c v i :
  times s c = inr v ->
  v !! i = (fun x => mul x c) <$> (cell_at s i ≫= to_float).
Proof.
  unfold times. intros (w & Hw & [= <-])%bind_inr.
  rewrite list_lookup_fmap. by rewrite (as_float64_lookup _ _ _ Hw).
Qed.

Lemma risk_score_expr_lookup d xs i :
  risk_score_expr d = inr xs -> xs !! i = compute_risk_score (row d i).
Proof.
  unfold risk_score_expr.
  intros (mp & Hmp%getitem_inr & H)%bind_inr.
  apply bind_inr in H as (t1 & Ht1 & H).
  apply bind_inr in H as (cu & Hcu%getitem_inr & H).
  apply bind_inr in H as (t2 & Ht2 & H).
  apply bind_inr in H as (cs & Hcs%getitem_inr & H).
  apply bind_inr in H as (g & Hg & H).
  apply bind_inr in H as (t3 & Ht3 & H).
  apply bind_inr in H as (dti & Hdti%getitem_inr & H).
  apply bind_inr in H as (t4 & Ht4 & [= <-]).
  unfold vadd, vtimes, compute_risk_score.
  rewrite !lookup_zip_with, !list_lookup_fmap, !row_lookup.
  rewrite (truediv_lookup _ _ _ i Ht1), (times_lookup _ _ _ i Ht2),
    (truediv_lookup _ _ _ i Ht3), (times_lookup _ _ _ i Ht4),
    (rsub_lookup _ _ _ i Hg), Hmp, Hcu, Hcs, Hdti. simpl.
  destruct (cell_at mp i ≫= to_float); simpl; [|done].
  destruct (cell_at cu i ≫= to_float); simpl; [|done].
  destruct ((cell_at cs i ≫= minus_from 850) ≫= to_float); simpl; [|done].
  destruct (cell_at dti i ≫= to_float); simpl; done.
Qed.

End Theory.

Section Frames.

Context {F : Type} {A : Arith F}.
Implicit Types (d : DataFrame F) (s : Series F) (r : gmap string (Cell F)).

Lemma as_float64_numeric s : numeric s = true <-> exists v, as_float64 s = inr v.
Proof.
  destruct s; cbn; split; try done; eauto; intros [v ?]; done.
Qed.

Lemma risk_score_expr_scorable d :
  scorable d <-> exists xs, risk_score_expr d = inr xs.
Proof.
  unfold scorable, score_columns. split.
  - intros H.
    destruct (H "missed_payments") as (mp & Hmp & [v1 H1]%as_float64_numeric);
      [set_solver|].
    destruct (H "credit_utilization") as (cu & Hcu & [v2 H2]%as_float64_numeric);
      [set_solver|].
    destruct (H "credit_score") as (cs & Hcs & Ncs); [set_solver|].
    destruct (H "debt_to_income_ratio") as (dti & Hdti & [v4 H4]%as_float64_numeric);
      [set_solver|].
    unfold risk_score_expr, getitem, truediv, times.
    rewrite Hmp, Hcu, Hcs, Hdti. cbn. rewrite H1. cbn. rewrite H2. cbn.
    destruct cs; try done; cbn; rewrite H4; cbn; eauto.
  - intros (xs & H) k Hk. revert H. unfold risk_score_expr.
    intros (mp & Hmp%getitem_inr & H)%bind_inr.
    apply bind_inr in H as (t1 & (v1 & Hv1 & _)%bind_inr & H).
    apply bind_inr in H as (cu & Hcu%getitem_inr & H).
    apply bind_inr in H as (t2 & (v2 & Hv2 & _)%bind_inr & H).
    apply bind_inr in H as (cs & Hcs%getitem_inr & H).
    apply bind_inr in H as (g & Hg & H).
    apply bind_inr in H as (t3 & _ & H).
    apply bind_inr in H as (dti & Hdti%getitem_inr & H).
    apply bind_inr in H as (t4 & (v4 & Hv4 & _)%bind_inr & _).
    assert (numeric cs = true) by (by destruct cs).
    rewrite !elem_of_cons, elem_of_nil in Hk.
    destruct Hk as [->|[->|[->|[->|[]]]]]; eexists; split; try done;
      apply as_float64_numeric; eauto.
Qed.

Lemma set_risk_score_inr d d' :
  set_risk_score d = inr d' <->
  exists xs, risk_score_expr d = inr xs /\ d' = <["risk_score" := FloatS xs]> d.
Proof.
  unfold set_risk_score, setitem. rewrite bind_inr.
  unfold ret, mret, err_ret.
  split; intros (xs & ? & ?); exists xs; split; try done; congruence.
Qed.

Lemma searchsorted_left_cons (b : F) bins x :
  searchsorted_left (b :: bins) x
  = ((if np_less b x then 1 else 0) + searchsorted_left bins x)%nat.
Proof.
  unfold searchsorted_left. cbn [List.filter].
  by destruct (np_less b x).
Qed.

Lemma cut_tiers xs :
  bins_accepted ->
  cut (FloatS xs) tier_bins tier_labels
  = inr (CatS (tier_code <$> xs) tier_labels).
Proof. intros [H1 H2]. unfold cut. by rewrite H1, H2. Qed.

Lemma cut_tiers_inv xs t :
  cut (FloatS xs) tier_bins tier_labels = inr t ->
  t = CatS (tier_code <$> xs) tier_labels.
Proof.
  unfold cut.
  destruct (decreases _); [done|].
  destruct (has_duplicates _); [done|]. by intros [= <-].
Qed.

Lemma calculate_risk_score_inv self self' :
  calculate_risk_score self = inr self' ->
  exists d xs, df self = Some d /\ risk_score_expr d = inr xs /\
    self' = {| df := Some (scored_frame d xs);
               stdout := stdout self ++ [risk_message] |}.
Proof.
  unfold calculate_risk_score. destruct (df self) as [d|]; [|done].
  intros (d1 & (xs & Hxs & ->)%set_risk_score_inr & H)%bind_inr.
  apply bind_inr in H as (d2 & H & [= <-]).
  unfold set_risk_tier, getitem, setitem in H.
  rewrite lookup_insert_eq in H. cbn in H.
  apply bind_inr in H as (t & ->%cut_tiers_inv & [= <-]).
  by exists d, xs.
Qed.

Lemma calculate_risk_score_run self d xs :
  bins_accepted ->
  df self = Some d -> risk_score_expr d = inr xs ->
  calculate_risk_score self
  = inr {| df := Some (scored_frame d xs);
           stdout := stdout self ++ [risk_message] |}.
Proof.
  intros Hb Hd Hxs. unfold calculate_risk_score, set_risk_score, set_risk_tier.
  rewrite Hd, Hxs. cbn. unfold getitem, setitem.
  rewrite lookup_insert_eq. cbn. by rewrite cut_tiers.
Qed.

End Frames.

Section Rows.

Context {F : Type} {A : Arith F}.
Implicit Types (d : DataFrame F) (s : Series F) (r : gmap string (Cell F)).

Lemma wrap64_small z : (- 2 ^ 63 <= z < 2 ^ 63)%Z -> wrap64 z = z.
Proof. intros. unfold wrap64. rewrite Z.mod_small; lia. Qed.

Lemma field_numeric d i k (x : F) :
  row d i !! k ≫= to_float = Some x ->
  exists s, d !! k = Some s /\ numeric s = true.
Proof.
  rewrite row_lookup. destruct (d !! k) as [s|]; [|done].
  intros H. exists s. split; [done|].
  destruct s; try done; cbn in H; destruct (_ !! i); done.
Qed.

Lemma gap_numeric d i k (x : F) :
  (row d i !! k ≫= minus_from 850) ≫= to_float = Some x ->
  exists s, d !! k = Some s /\ numeric s = true.
Proof.
  rewrite row_lookup. destruct (d !! k) as [s|]; [|done].
  intros H. exists s. split; [done|].
  destruct s; try done; cbn in H; destruct (_ !! i); done.
Qed.

Lemma scored_frame_row d xs i :
  risk_score_expr d = inr xs ->
  row (scored_frame d xs) i !! "risk_score"
    = CFloat <$> compute_risk_score (row d i) /\
  row (scored_frame d xs) i !! "risk_tier"
    = (fun x => CCat (assign_risk_tier x)) <$> compute_risk_score (row d i).
Proof.
  intros H. unfold scored_frame. rewrite !row_lookup.
  rewrite lookup_insert_ne, !lookup_insert_eq by done. cbn.
  rewrite list_lookup_fmap, (risk_score_expr_lookup _ _ i H).
  split; [done|]. by destruct (compute_risk_score _).
Qed.

Lemma risk_score_expr_ext d e :
  (forall k, k ∈ score_columns -> d !! k = e !! k) ->
  risk_score_expr d = risk_score_expr e.
Proof.
  intros H. unfold risk_score_expr, getitem.
  rewrite !H by (unfold score_columns; set_solver). done.
Qed.

Lemma scored_frame_twice d xs :
  scored_frame (scored_frame d xs) xs = scored_frame d xs.
Proof.
  unfold scored_frame. apply map_eq. intros k.
  destruct (decide (k = "risk_tier")) as [->|];
    [by rewrite !lookup_insert_eq|].
  destruct (decide (k = "risk_score")) as [->|].
  - rewrite !(lookup_insert_ne _ "risk_tier") by done.
    by rewrite !lookup_insert_eq.
  - by rewrite !lookup_insert_ne by done.
Qed.

End Rows.

Module F64.

Import Binary64.

Lemma SFcompare_key_1 f1 f2 c :
  SFcompare f1 f2 = Some c ->
  exists k1 k2, key f1 = Some k1 /\ key f2 = Some k2 /\
    match c with
    | Lt => lex_lt k1 k2
    | Eq => k1 = k2
    | Gt => lex_lt k2 k1
    end.
Proof.
  destruct f1 as [[]|[]| |[] m1 e1], f2 as [[]|[]| |[] m2 e2]; simpl;
    intros [= <-]; (do 2 eexists); (split; [reflexivity|]);
    (split; [reflexivity|]); simpl; try done; try lia.
  - change (PosDef.Pos.compare_cont Eq m1 m2) with (Pos.compare m1 m2).
    destruct (Z.compare_spec e1 e2); simpl; try lia.
    subst. destruct (Pos.compare_spec m1 m2); simpl; try lia. by subst.
  - change (PosDef.Pos.compare_cont Eq m1 m2) with (Pos.compare m1 m2).
    destruct (Z.compare_spec e1 e2); simpl; try lia.
    subst. destruct (Pos.compare_spec m1 m2); simpl; try lia. by subst.
Qed.

Lemma SFcompare_None f1 f2 :
  SFcompare f1 f2 = None <-> key f1 = None \/ key f2 = None.
Proof.
  destruct f1 as [[]|[]| |[] m1 e1], f2 as [[]|[]| |[] m2 e2]; simpl;
    split; try discriminate; auto; intros [|]; discriminate.
Qed.

Lemma SFcompare_key f1 f2 c :
  SFcompare f1 f2 = Some c <->
  exists k1 k2, key f1 = Some k1 /\ key f2 = Some k2 /\
    match c with
    | Lt => lex_lt k1 k2
    | Eq => k1 = k2
    | Gt => lex_lt k2 k1
    end.
Proof.
  split; [apply SFcompare_key_1|].
  intros (k1 & k2 & H1 & H2 & H).
  destruct (SFcompare f1 f2) as [c'|] eqn:E.
  - apply SFcompare_key_1 in E as (k1' & k2' & H1' & H2' & H').
    rewrite H1 in H1'. rewrite H2 in H2'.
    injection H1' as <-. injection H2' as <-.
    destruct k1 as [[a1 a2] a3], k2 as [[b1 b2] b3].
    destruct c, c'; simpl in *; simplify_eq; try done; lia.
  - apply SFcompare_None in E as [E|E]; congruence.
Qed.


Lemma ltb_key x y :
  (x <? y)%float = true <->
  exists k1 k2, fkey x = Some k1 /\ fkey y = Some k2 /\ lex_lt k1 k2.
Proof.
  rewrite FloatAxioms.ltb_spec. unfold SFltb, fkey.
  rewrite <- (SFcompare_key _ _ Lt).
  destruct (SFcompare _ _) as [[]|]; split; congruence.
Qed.

Lemma leb_key x y :
  (x <=? y)%float = true <->
  exists k1 k2, fkey x = Some k1 /\ fkey y = Some k2 /\
    (lex_lt k1 k2 \/ k1 = k2).
Proof.
  rewrite FloatAxioms.leb_spec. unfold SFleb, fkey. split.
  - destruct (SFcompare _ _) as [[]|] eqn:E; try discriminate; intros _;
      apply SFcompare_key in E as (k1 & k2 & ? & ? & ?); eauto 8.
  - intros (k1 & k2 & H1 & H2 & [H|H]).
    + by rewrite (proj2 (SFcompare_key _ _ Lt)) by eauto.
    + by rewrite (proj2 (SFcompare_key _ _ Eq)) by eauto.
Qed.

Lemma eqb_key x y :
  (x =? y)%float = true <->
  exists k, fkey x = Some k /\ fkey y = Some k.
Proof.
  rewrite FloatAxioms.eqb_spec. unfold SFeqb, fkey. split.
  - destruct (SFcompare _ _) as [[]|] eqn:E; try discriminate; intros _.
    apply SFcompare_key in E as (k1 & k2 & ? & ? & ->); eauto.
  - intros (k & H1 & H2).
    by rewrite (proj2 (SFcompare_key _ _ Eq)) by eauto.
Qed.

Lemma is_nan_key x : is_nan x = true <-> fkey x = None.
Proof.
  unfold is_nan. rewrite negb_true_iff, <- not_true_iff_false, eqb_key.
  destruct (fkey x) as [k|]; split; try done.
  - intros []. eauto.
  - intros _ (k & ? & _). done.
Qed.


(** *** The order *)

Ltac key_solve :=
  repeat match goal with
  | H : fkey ?x = Some _, H' : fkey ?x = Some _ |- _ =>
      rewrite H in H'; injection H' as ?; subst
  end;
  repeat match goal with
  | k : (Z * Z * Z)%type |- _ => destruct k as [[? ?] ?]
  end;
  simpl in *;
  repeat match goal with
  | H : _ \/ _ |- _ => destruct H
  | H : _ /\ _ |- _ => destruct H
  | H : (_, _) = (_, _) |- _ => injection H as ?
  end; subst; try done; try lia.

Lemma ltb_trans x y z :
  (x <? y)%float = true -> (y <? z)%float = true -> (x <? z)%float = true.
Proof.
  rewrite !ltb_key. intros (a & b & Ha & Hb & ?) (b' & c & Hb' & Hc & ?).
  exists a, c. repeat split; try done. key_solve.
Qed.

Lemma ltb_leb_trans x y z :
  (x <? y)%float = true -> (y <=? z)%float = true -> (x <? z)%float = true.
Proof.
  rewrite !ltb_key, leb_key.
  intros (a & b & Ha & Hb & ?) (b' & c & Hb' & Hc & ?).
  exists a, c. repeat split; try done. key_solve.
Qed.

Lemma leb_not_ltb x y :
  (x <=? y)%float = true -> (y <? x)%float = false.
Proof.
  rewrite <- not_true_iff_false, ltb_key, leb_key.
  intros (a & b & Ha & Hb & ?) (b' & a' & Hb' & Ha' & ?). key_solve.
Qed.

Lemma eqb_not_ltb x y :
  (x =? y)%float = true -> (y <? x)%float = false.
Proof.
  rewrite <- not_true_iff_false, ltb_key, eqb_key.
  intros (a & Ha & Hb) (b' & a' & Hb' & Ha' & ?). key_solve.
Qed.

Lemma ltb_eqb_trans x y z :
  (x <? y)%float = true -> (z =? y)%float = true -> (x <? z)%float = true.
Proof.
  rewrite !ltb_key, eqb_key.
  intros (a & b & Ha & Hb & ?) (b' & Hc & Hb').
  exists a, b'. repeat split; try done. key_solve.
Qed.

Lemma ltb_not_nan x y :
  (x <? y)%float = true -> is_nan x = false /\ is_nan y = false.
Proof.
  rewrite <- !not_true_iff_false, !is_nan_key, ltb_key.
  intros (a & b & -> & -> & _). done.
Qed.

Lemma not_ltb_leb x y :
  is_nan x = false -> is_nan y = false ->
  (x <? y)%float = false -> (y <=? x)%float = true.
Proof.
  rewrite <- !not_true_iff_false, !is_nan_key, ltb_key, leb_key.
  intros Hx Hy H.
  destruct (fkey x) as [a|] eqn:Ha; [|done].
  destruct (fkey y) as [b|] eqn:Hb; [|done].
  exists b, a. repeat split; try done.
  destruct a as [[a1 a2] a3], b as [[b1 b2] b3].
  assert (~ lex_lt (a1, a2, a3) (b1, b2, b3)) as Hn by (intros ?; apply H; eauto).
  simpl in *.
  destruct (decide (b1 = a1)) as [->|]; [|lia].
  destruct (decide (b2 = a2)) as [->|]; [|lia].
  destruct (decide (b3 = a3)) as [->|]; [by right|lia].
Qed.

(** *** NaN is absorbing *)





End F64.

Module Rounding.

Import Binary64.
Open Scope Q_scope.

Lemma pow2_pos e : 0 < 2 ^ e.
Proof. by apply Qpower_0_lt. Qed.

Lemma pow2_add a b : 2 ^ (a + b) == 2 ^ a * 2 ^ b.
Proof. by apply Qpower_plus. Qed.

Lemma pow2_le a b : (a <= b)%Z -> 2 ^ a <= 2 ^ b.
Proof. intros. by apply Qpower_le_compat_l. Qed.

Lemma pow2_Z n : (0 <= n)%Z -> inject_Z (2 ^ n) == 2 ^ n.
Proof. intros. by rewrite Zpower_Qpower. Qed.

Lemma val_le m m' e : (m <= m')%Z -> val m e <= val m' e.
Proof.
  intros H. unfold val. apply Qmult_le_compat_r.
  - by rewrite <- Zle_Qle.
  - apply Qlt_le_weak, pow2_pos.
Qed.

Lemma val_nonneg m e : (0 <= m)%Z -> 0 <= val m e.
Proof.
  intros H. unfold val. apply Qmult_le_0_compat.
  - by rewrite <- (Zle_Qle 0).
  - apply Qlt_le_weak, pow2_pos.
Qed.

(** Shifting the mantissa left and the exponent down keeps the value. *)
Lemma val_shift m e n : (0 <= n)%Z -> val (m * 2 ^ n) (e - n) == val m e.
Proof.
  intros H. unfold val. rewrite inject_Z_mult, pow2_Z by done.
  rewrite <- Qmult_assoc, <- pow2_add. by replace (n + (e - n))%Z with e by lia.
Qed.

(** *** Shifting right *)

Lemma iter_pos_nat {A} (f : A -> A) p x :
  SpecFloat.iter_pos f p x = Nat.iter (Pos.to_nat p) f x.
Proof.
  revert x. induction p as [p IH|p IH|]; intros x; cbn [SpecFloat.iter_pos].
  - rewrite !IH, Pos2Nat.inj_xI.
    replace (S (2 * Pos.to_nat p)) with (Pos.to_nat p + (Pos.to_nat p + 1))%nat by lia.
    rewrite !Nat.iter_add. reflexivity.
  - rewrite !IH, Pos2Nat.inj_xO.
    replace (2 * Pos.to_nat p)%nat with (Pos.to_nat p + Pos.to_nat p)%nat by lia.
    rewrite Nat.iter_add. reflexivity.
  - reflexivity.
Qed.

Lemma shr_1_m mrs : (0 <= shr_m mrs)%Z -> shr_m (shr_1 mrs) = Z.div2 (shr_m mrs).
Proof. destruct mrs as [[|[p|p|]|p] r s]; cbn; try reflexivity; lia. Qed.

Lemma shr_iter_m n mrs :
  (0 <= shr_m mrs)%Z ->
  shr_m (Nat.iter n shr_1 mrs) = Nat.iter n Z.div2 (shr_m mrs) /\
  (0 <= Nat.iter n Z.div2 (shr_m mrs))%Z.
Proof.
  intros H. induction n as [|n [IH1 IH2]]; [done|].
  rewrite !Nat.iter_succ.
  rewrite shr_1_m by (by rewrite IH1). rewrite IH1. split; [done|].
  rewrite Z.div2_div. by apply Z.div_pos.
Qed.

Lemma shr_m_spec mrs e n :
  (0 <= shr_m mrs)%Z -> (0 < n)%Z ->
  shr_m (fst (shr mrs e n)) = (shr_m mrs / 2 ^ n)%Z /\
  snd (shr mrs e n) = (e + n)%Z.
Proof.
  intros Hm Hn. destruct n as [|p|p]; try lia. cbn [shr fst snd].
  split; [|done]. rewrite iter_pos_nat.
  rewrite (proj1 (shr_iter_m _ _ Hm)).
  rewrite <- Z.shiftr_div_pow2 by lia.
  change (Z.shiftr (shr_m mrs) (Z.pos p)) with (Pos.iter Z.div2 (shr_m mrs) p).
  by rewrite Pos2Nat.inj_iter.
Qed.

Lemma shr_id mrs e n : (n <= 0)%Z -> shr mrs e n = (mrs, e).
Proof. by destruct n as [|p|p]; [| lia |]. Qed.

Lemma shr_val_le m r s e n :
  (0 <= m)%Z ->
  (0 <= shr_m (fst (shr (Build_shr_record m r s) e n)))%Z /\
  val (shr_m (fst (shr (Build_shr_record m r s) e n)))
      (snd (shr (Build_shr_record m r s) e n)) <= val m e.
Proof.
  intros Hm. destruct (Z_le_gt_dec n 0) as [Hn|Hn].
  - rewrite shr_id by done. cbn. split; [done|]. apply Qle_refl.
  - destruct (shr_m_spec (Build_shr_record m r s) e n) as [-> ->]; [done|lia|].
    cbn [shr_m]. split; [apply Z.div_pos; lia|].
    rewrite <- (val_shift (m / 2 ^ n) (e + n) n) by lia.
    replace (e + n - n)%Z with e by lia.
    apply val_le. rewrite Z.mul_comm. apply Z.mul_div_le. lia.
Qed.

Lemma round_nearest_even_bounds m l :
  (m <= round_nearest_even m l <= m + 1)%Z.
Proof.
  destruct l as [|[]]; cbn; try lia. destruct (Z.even m); lia.
Qed.

(** *** Digits *)

Lemma digits2_bounds m :
  (2 ^ (Zpos (digits2_pos m) - 1) <= Zpos m < 2 ^ Zpos (digits2_pos m))%Z.
Proof.
  induction m as [m IH|m IH|]; cbn [digits2_pos]; [| |cbn; lia];
    rewrite Pos2Z.inj_succ;
    replace (Z.succ (Z.pos (digits2_pos m)) - 1)%Z
      with (Z.succ (Z.pos (digits2_pos m) - 1)) by lia;
    rewrite !Z.pow_succ_r by lia;
    revert IH;
    generalize (2 ^ (Z.pos (digits2_pos m) - 1))%Z (2 ^ Z.pos (digits2_pos m))%Z;
    intros; lia.
Qed.

(** A positive number below 2 has its leading bit at position 0 at most. *)
Lemma digits_below_2 m e :
  val (Zpos m) e < 2 -> (Zpos (digits2_pos m) + e <= 1)%Z.
Proof.
  intros H. destruct (Z_le_gt_dec (Zpos (digits2_pos m) + e) 1) as [|Hgt]; [done|].
  exfalso. apply (Qlt_not_le _ _ H).
  apply Qle_trans with (val (2 ^ (Zpos (digits2_pos m) - 1)) e).
  - unfold val. rewrite pow2_Z by lia. rewrite <- pow2_add.
    change 2 with (2 ^ 1) at 1. apply pow2_le. lia.
  - apply val_le. apply digits2_bounds.
Qed.

(** *** Rounding a positive number below 2 *)

Lemma eps_pos : 0 < eps.
Proof. apply pow2_pos. Qed.

Lemma shr_fexp_cases m e l :
  (0 <= m)%Z ->
  let r := shr_fexp prec emax m e l in
  (0 <= shr_m (fst r))%Z /\
  val (shr_m (fst r)) (snd r) <= val m e /\
  (r = (shr_record_of_loc m l, e) \/
   snd r = fexp prec emax (Zdigits2 m + e)).
Proof.
  intros Hm. unfold shr_fexp.
  set (n := (fexp prec emax (Zdigits2 m + e) - e)%Z).
  assert (exists r s, shr_record_of_loc m l = Build_shr_record m r s)
    as (r & s & ->) by (destruct l as [|[]]; cbn; eauto).
  destruct (shr_val_le m r s e n Hm) as [H1 H2].
  cbn zeta. split; [done|]. split; [done|].
  destruct (Z_le_gt_dec n 0) as [Hn|Hn].
  - left. by apply shr_id.
  - right. destruct (shr_m_spec (Build_shr_record m r s) e n) as [_ ->];
      [done|lia|]. unfold n. lia.
Qed.

Lemma val_succ m e : val (m + 1) e == val m e + 2 ^ e.
Proof. unfold val. rewrite inject_Z_plus. ring. Qed.

Lemma val_pos_ge m e : 2 ^ e <= val (Zpos m) e.
Proof.
  rewrite <- (Qmult_1_l (2 ^ e)) at 1. unfold val.
  apply Qmult_le_compat_r; [|apply Qlt_le_weak, pow2_pos].
  change 1 with (inject_Z 1). rewrite <- Zle_Qle. lia.
Qed.

Lemma round_aux_le (m : positive) e :
  val (Zpos m) e < 2 ->
  bound_ok (binary_round_aux prec emax false (Zpos m) e loc_Exact)
           (val (Zpos m) e + eps).
Proof.
  intros Hlt. unfold binary_round_aux.
  pose proof (shr_fexp_cases (Zpos m) e loc_Exact ltac:(lia)) as H1.
  destruct (shr_fexp prec emax (Zpos m) e loc_Exact) as [mrs' e'].
  cbn [fst snd] in H1. cbn zeta in H1. destruct H1 as (Hm0 & Hv0 & Hc0).
  set (m1 := round_nearest_even (shr_m mrs') (loc_of_shr_record mrs')).
  assert (Hm1 : (0 <= m1)%Z).
  { pose proof (round_nearest_even_bounds (shr_m mrs') (loc_of_shr_record mrs')).
    unfold m1. lia. }
  assert (Hv1 : val m1 e' <= val (Zpos m) e + eps).
  { destruct Hc0 as [Hc0|Hc0].
    - injection Hc0 as -> ->. unfold m1. cbn.
      rewrite <- (Qplus_0_r (val (Z.pos m) e)) at 1.
      apply Qplus_le_r, Qlt_le_weak, eps_pos.
    - apply Qle_trans with (val (shr_m mrs' + 1) e').
      { apply val_le. apply round_nearest_even_bounds. }
      rewrite val_succ. apply Qplus_le_compat; [done|].
      unfold eps. apply pow2_le. rewrite Hc0. cbn [Zdigits2].
      pose proof (digits_below_2 m e Hlt). unfold fexp, SpecFloat.emin.
      cbv [prec emax]. lia. }
  pose proof (shr_fexp_cases m1 e' loc_Exact Hm1) as H2.
  destruct (shr_fexp prec emax m1 e' loc_Exact) as [mrs'' e''].
  cbn [fst snd] in H2. cbn zeta in H2. destruct H2 as (Hm2 & Hv2 & _).
  assert (Hv : val (shr_m mrs'') e'' <= val (Zpos m) e + eps)
    by (eapply Qle_trans; eassumption).
  destruct (shr_m mrs'') as [|p|p]; [| |lia].
  - cbn. eapply Qle_trans; [|exact Hv]. by apply val_nonneg.
  - destruct (Z.leb_spec e'' (emax - prec)) as [Hle|Hgt]; [exact Hv|].
    cbn. apply (Qlt_not_le _ _ Hlt).
    assert (2 ^ 2 <= val (Zpos p) e'').
    { eapply Qle_trans; [|apply val_pos_ge]. apply pow2_le.
      revert Hgt. cbv [prec emax]. lia. }
    assert (eps <= 1).
    { change 1 with (2 ^ 0). by apply pow2_le. }
    change (2 ^ 2) with 4 in *. lra.
Qed.

Lemma bound_ok_le f q q' : bound_ok f q -> q <= q' -> bound_ok f q'.
Proof.
  destruct f as [| | |[] m e]; cbn; try done; intros; eapply Qle_trans; eauto.
Qed.

Lemma bound_ok_nonneg f q : bound_ok f q -> 0 <= q.
Proof.
  destruct f as [| | |[] m e]; cbn; try done.
  intros. eapply Qle_trans; [|eassumption]. by apply val_nonneg.
Qed.

(** *** Multiplication *)

Lemma val_mul m1 e1 m2 e2 :
  val (m1 * m2) (e1 + e2) == val m1 e1 * val m2 e2.
Proof. unfold val. rewrite inject_Z_mult, pow2_add. ring. Qed.

Lemma SFmul_bound x y qx qy :
  bound_ok x qx -> bound_ok y qy -> qx * qy < 2 ->
  bound_ok (SFmul prec emax x y) (qx * qy + eps).
Proof.
  intros Hx Hy Hlt.
  pose proof (bound_ok_nonneg _ _ Hx). pose proof (bound_ok_nonneg _ _ Hy).
  assert (0 <= qx * qy + eps).
  { pose proof eps_pos. pose proof (Qmult_le_0_compat _ _ H H0). lra. }
  destruct x as [sx| | |[] mx ex], y as [sy| | |[] my ey]; cbn in Hx, Hy; try done.
  cbn [SFmul xorb].
  assert (Hv : val (Zpos (mx * my)) (ex + ey) <= qx * qy).
  { rewrite Pos2Z.inj_mul, val_mul.
    apply Qmult_le_compat_nonneg; split; try done; by apply val_nonneg. }
  eapply bound_ok_le; [apply round_aux_le|].
  - eapply Qle_lt_trans; eassumption.
  - by apply Qplus_le_l.
Qed.

(** *** Addition *)

Lemma iter_xO m n : Zpos (Nat.iter n xO m) = (Zpos m * 2 ^ Z.of_nat n)%Z.
Proof.
  induction n as [|n IH]; [cbn; lia|].
  rewrite Nat.iter_succ, Pos2Z.inj_xO, IH, Nat2Z.inj_succ, Z.pow_succ_r by lia.
  ring.
Qed.

Lemma pos_iter_xO m d : Zpos (Pos.iter xO m d) = (Zpos m * 2 ^ Zpos d)%Z.
Proof.
  rewrite <- (positive_nat_Z d), <- iter_xO. f_equal. apply Pos2Nat.inj_iter.
Qed.

Lemma shl_align_val m e e' :
  val (Zpos (fst (shl_align m e e'))) (snd (shl_align m e e')) == val (Zpos m) e.
Proof.
  unfold shl_align. destruct (e' - e)%Z as [|d|d] eqn:E; cbn [fst snd]; try reflexivity.
  rewrite pos_iter_xO.
  replace e' with (e - Zpos d)%Z by lia. apply val_shift. lia.
Qed.

Lemma val_add m1 m2 e : val (m1 + m2) e == val m1 e + val m2 e.
Proof. unfold val. rewrite inject_Z_plus. ring. Qed.

Lemma SFadd_bound x y qx qy :
  bound_ok x qx -> bound_ok y qy -> qx + qy < 2 ->
  bound_ok (SFadd prec emax x y) (qx + qy + eps).
Proof.
  intros Hx Hy Hlt.
  pose proof (bound_ok_nonneg _ _ Hx). pose proof (bound_ok_nonneg _ _ Hy).
  pose proof eps_pos.
  destruct x as [sx| | |[] mx ex], y as [sy| | |[] my ey]; cbn in Hx, Hy; try done.
  - destruct sx, sy; cbn; lra.
  - cbn. lra.
  - cbn. lra.
  - cbn [SFadd cond_Zopp].
    set (ez := Z.min ex ey).
    pose proof (shl_align_val mx ex ez) as Vx.
    pose proof (shl_align_val my ey ez) as Vy.
    assert (Ex : snd (shl_align mx ex ez) = ez).
    { unfold shl_align. destruct (ez - ex)%Z eqn:E; cbn; lia. }
    assert (Ey : snd (shl_align my ey ez) = ez).
    { unfold shl_align. destruct (ez - ey)%Z eqn:E; cbn; lia. }
    rewrite Ex in Vx. rewrite Ey in Vy.
    set (ax := fst (shl_align mx ex ez)) in *.
    set (ay := fst (shl_align my ey ez)) in *.
    change (Z.pos ax + Z.pos ay)%Z with (Z.pos (ax + ay)).
    cbn [binary_normalize]. unfold binary_round.
    pose proof (shl_align_val (ax + ay) ez
                  (fexp prec emax (Z.pos (digits2_pos (ax + ay)) + ez))) as Vs.
    destruct (shl_align (ax + ay) ez _) as [mz ez']. cbn [fst snd] in Vs.
    assert (Hv : val (Zpos mz) ez' <= qx + qy).
    { rewrite Vs, Pos2Z.inj_add, val_add, Vx, Vy. by apply Qplus_le_compat. }
    eapply bound_ok_le; [apply round_aux_le|].
    + eapply Qle_lt_trans; eassumption.
    + by apply Qplus_le_l.
Qed.

(** *** Primitive floats *)

Lemma mul_within x y qx qy :
  within x qx -> within y qy -> qx * qy < 2 ->
  within (x * y)%float (qx * qy + eps).
Proof. unfold within. rewrite mul_spec. apply SFmul_bound. Qed.

Lemma add_within x y qx qy :
  within x qx -> within y qy -> qx + qy < 2 ->
  within (x + y)%float (qx + qy + eps).
Proof. unfold within. rewrite add_spec. apply SFadd_bound. Qed.

Lemma within_le x q q' : within x q -> q <= q' -> within x q'.
Proof. apply bound_ok_le. Qed.

(** A valid mantissa has 53 bits at most, and exactly 53 above the
    subnormal range. *)
Lemma valid_mantissa s m e :
  SpecFloat.valid_binary prec emax (S754_finite s m e) = true ->
  (Zpos m < 2 ^ 53)%Z /\ (e = -1074 \/ 2 ^ 52 <= Zpos m)%Z.
Proof.
  cbn. unfold bounded, canonical_mantissa, fexp, SpecFloat.emin.
  intros [Hc _]%andb_prop. apply Z.eqb_eq in Hc.
  pose proof (digits2_bounds m) as [Hlo Hhi]. revert Hc. cbv [prec emax].
  intros Hc.
  assert (Zpos (digits2_pos m) <= 53)%Z by lia. split.
  - eapply Z.lt_le_trans; [exact Hhi|]. apply Z.pow_le_mono_r; lia.
  - destruct (Z.eq_dec e (-1074)%Z) as [|Hne]; [by left|right].
    assert (Zpos (digits2_pos m) = 53)%Z as Hd by lia.
    rewrite Hd in Hlo. exact Hlo.
Qed.

Lemma val_pow2 n e : (0 <= n)%Z -> val (2 ^ n) e == 2 ^ (n + e).
Proof. intros. unfold val. by rewrite pow2_Z, <- pow2_add. Qed.

Lemma within_of_leb x :
  (0 <=? x)%float = true -> (x <=? 1)%float = true -> within x 1.
Proof.
  rewrite !FloatAxioms.leb_spec. unfold within, SFleb.
  pose proof (Prim2SF_valid x) as Hv.
  change (Prim2SF 0) with (S754_zero false).
  change (Prim2SF 1) with (S754_finite false 4503599627370496 (-52)).
  destruct (Prim2SF x) as [s|[]| |[] m e]; unfold SFcompare, bound_ok;
    [intros _ _; lra|discriminate|intros _; discriminate|discriminate
    |discriminate|].
  destruct (valid_mantissa _ _ _ Hv) as [Hm _]. intros _ Hle.
  assert (Hc : (e < -52 \/ e = -52 /\ Zpos m <= 2 ^ 52)%Z).
  { destruct (Z.compare_spec e (-52)%Z) as [->|Hlt|Hgt]; [|lia|discriminate].
    right. split; [reflexivity|].
    pose proof (Pos.compare_spec m 4503599627370496) as Hs.
    unfold Pos.compare in Hs.
    change (2 ^ 52)%Z with 4503599627370496%Z.
    destruct Hs as [->|Hlt|Hgt]; [apply Z.le_refl| |discriminate].
    apply Pos2Z.pos_le_pos, Pos.lt_le_incl, Hlt. }
  change 1 with (2 ^ 0).
  destruct Hc as [He|[-> Hm']].
  - apply Qle_trans with (val (2 ^ 53) e).
    + apply val_le. lia.
    + rewrite val_pow2 by lia. apply pow2_le. lia.
  - apply Qle_trans with (val (2 ^ 52) (-52)).
    + apply val_le. exact Hm'.
    + rewrite val_pow2 by lia. apply pow2_le. lia.
Qed.

Lemma leb_of_within x q :
  within x q -> q < 1 ->
  (0 <=? x)%float = true /\ (x <=? 1)%float = true.
Proof.
  rewrite !FloatAxioms.leb_spec. unfold within, SFleb.
  pose proof (Prim2SF_valid x) as Hv.
  change (Prim2SF 0) with (S754_zero false).
  change (Prim2SF 1) with (S754_finite false 4503599627370496 (-52)).
  destruct (Prim2SF x) as [s|[]| |[] m e]; unfold SFcompare, bound_ok;
    [intros _ _; split; reflexivity|intros []|intros []|intros []|intros []|].
  intros Hq Hlt. split; [reflexivity|].
  destruct (valid_mantissa _ _ _ Hv) as [_ Hm].
  assert (e < -52)%Z as He.
  { destruct Hm as [->|Hm]; [lia|].
    destruct (Z_lt_ge_dec e (-52)%Z) as [|Hge]; [assumption|]. exfalso.
    apply (Qlt_not_le _ _ Hlt). eapply Qle_trans; [|exact Hq].
    apply Qle_trans with (val (2 ^ 52) e); [|apply val_le; exact Hm].
    rewrite val_pow2 by lia. change 1 with (2 ^ 0). apply pow2_le. lia. }
  destruct (Z.compare_spec e (-52)%Z); [lia|reflexivity|lia].
Qed.

End Rounding.

Section Binary64Tiers.

Open Scope float_scope.

Lemma bins_accepted_binary64 : bins_accepted (F := float).
Proof. split; vm_compute; reflexivity. Qed.

Lemma bins_accepted_exact : bins_accepted (F := option Q).
Proof. split; vm_compute; reflexivity. Qed.

(** The literals of the program denote the doubles Python reads. *)
Lemma literals :
  (lit 0 : float) = 0 /\ (lit 0.30 : float) = 0.30 /\
  (lit 0.70 : float) = 0.70 /\ (lit 1.0 : float) = 1.0 /\
  (lit 6.0 : float) = 6.0 /\ (lit 0.25 : float) = 0.25 /\
  (lit 850.0 : float) = 850.0 /\ (lit 0.20 : float) = 0.20.
Proof. repeat split; vm_compute; reflexivity. Qed.

Lemma tier_bins_binary64 : tier_bins = [0; 0.30; 0.70; 1.0].
Proof. vm_compute. reflexivity. Qed.

(** [pd.cut] on the program's bins, as a decision list. *)
Lemma tier_code_binary64 (s : float) :
  tier_code s =
    if is_nan s then None
    else if 1.0 <? s then None
    else if 0.70 <? s then Some 2%nat
    else if 0.30 <? s then Some 1%nat
    else if 0 <? s then Some 0%nat
    else None.
Proof.
  unfold tier_code, cut_code. cbn [isna binary64].
  destruct (is_nan s) eqn:Hn; [reflexivity|].
  rewrite tier_bins_binary64, !searchsorted_left_cons.
  unfold np_less. cbn [isna ltb binary64]. rewrite Hn. cbn [andb].
  rewrite !orb_false_r.
  assert (H1 : (1.0 <? s) = true -> (0.70 <? s) = true)
    by (apply F64.ltb_trans; vm_compute; reflexivity).
  assert (H2 : (0.70 <? s) = true -> (0.30 <? s) = true)
    by (apply F64.ltb_trans; vm_compute; reflexivity).
  assert (H3 : (0.30 <? s) = true -> (0 <? s) = true)
    by (apply F64.ltb_trans; vm_compute; reflexivity).
  destruct (1.0 <? s); [rewrite H1, H2, H3 by auto; reflexivity|].
  destruct (0.70 <? s); [rewrite H2, H3 by auto; reflexivity|].
  destruct (0.30 <? s); [rewrite H3 by auto; reflexivity|].
  destruct (0 <? s); reflexivity.
Qed.

End Binary64Tiers.

Section Run.

Context {F : Type} {A : Arith F}.
Implicit Types (d : DataFrame F) (r : gmap string (Cell F)).

Lemma in_score_columns (k : string) :
  k ∈ score_columns <->
  k = "missed_payments" \/ k = "credit_utilization" \/
  k = "credit_score" \/ k = "debt_to_income_ratio".
Proof.
  unfold score_columns. rewrite !elem_of_cons, elem_of_nil. tauto.
Qed.

Lemma compute_risk_score_scorable d i (x : F) :
  compute_risk_score (row d i) = Some x -> scorable d.
Proof.
  unfold compute_risk_score. rewrite !row_lookup.
  intros H k. rewrite in_score_columns.
  assert (Hnum : forall s c, cell_at s i = Some c -> to_float c <> None ->
                   numeric s = true).
  { intros s c. destruct s; cbn; destruct (_ !! i); cbn;
      intros ? ?; simplify_eq; try done. }
  destruct (d !! "missed_payments") as [s1|] eqn:D1; [|done]. cbn in H.
  destruct (cell_at s1 i) as [c1|] eqn:E1; [|done]. cbn in H.
  destruct (to_float c1) eqn:T1; [|done]. cbn in H.
  destruct (d !! "credit_utilization") as [s2|] eqn:D2; [|done]. cbn in H.
  destruct (cell_at s2 i) as [c2|] eqn:E2; [|done]. cbn in H.
  destruct (to_float c2) eqn:T2; [|done]. cbn in H.
  destruct (d !! "credit_score") as [s3|] eqn:D3; [|done]. cbn in H.
  destruct (cell_at s3 i) as [c3|] eqn:E3; [|done]. cbn in H.
  destruct (minus_from 850%Z c3) as [c3'|] eqn:M3; [|done]. cbn in H.
  destruct (to_float c3') eqn:T3; [|done]. cbn in H.
  destruct (d !! "debt_to_income_ratio") as [s4|] eqn:D4; [|done]. cbn in H.
  destruct (cell_at s4 i) as [c4|] eqn:E4; [|done]. cbn in H.
  destruct (to_float c4) eqn:T4; [|done].
  intros [->|[->|[->| ->]]]; eexists; (split; [eassumption|]);
    eapply Hnum; try eassumption; try congruence.
  destruct c3; cbn in M3; simplify_eq; done.
Qed.

(** Under accepted bins the method returns on every scorable frame, and
    what it leaves at each row is the score of that row and its tier. *)
Lemma calculate_risk_score_rows (self : EDA F) d :
  bins_accepted -> df self = Some d -> scorable d ->
  exists self' d',
    calculate_risk_score self = inr self' /\
    df self' = Some d' /\
    forall i,
      row d' i !! "risk_score" = CFloat <$> compute_risk_score (row d i) /\
      row d' i !! "risk_tier" =
        (fun x => CCat (assign_risk_tier x)) <$> compute_risk_score (row d i).
Proof.
  intros Hb Hd [xs Hxs]%risk_score_expr_scorable.
  eexists _, (scored_frame d xs). split; [by apply calculate_risk_score_run|].
  split; [done|]. intros i. by apply scored_frame_row.
Qed.

End Run.

(** * The claims *)

Section GenericClaims.

Context {F : Type} {A : Arith F}.
Implicit Types (d : DataFrame F) (r : gmap string (Cell F)).

(** C1. For every record (row [i] of the frame) whose four fields are
    numeric, with [mp], [cu] and [dti] the values of [missed_payments],
    [credit_utilization] and [debt_to_income_ratio] and [gap] the value of
    [850 - credit_score], lines 69-74 evaluate without error and leave at
    row [i] of the new column [risk_score] exactly
    [(mp / 6.0) * 0.30 + cu * 0.25 + (gap / 850.0) * 0.25 + dti * 0.20].
    The result is the input frame with that one column written: every
    other column is as it was.  On a float cell [gap] is [850 - x] in
    float64; on an integer cell it is the integer [850 - z], which numpy
    forms in [int64]. *)
Theorem risk_score_is_weighted_sum d i (mp cu gap dti : F) :
  row d i !! "missed_payments" ≫= to_float = Some mp ->
  row d i !! "credit_utilization" ≫= to_float = Some cu ->
  (row d i !! "credit_score" ≫= minus_from 850) ≫= to_float = Some gap ->
  row d i !! "debt_to_income_ratio" ≫= to_float = Some dti ->
  (exists d',
     set_risk_score d = inr d' /\
     row d' i !! "risk_score" =
       Some (CFloat ((mp ⊘ lit 6.0) ⊗ lit 0.30
                     ⊕ cu ⊗ lit 0.25
                     ⊕ (gap ⊘ lit 850.0) ⊗ lit 0.25
                     ⊕ dti ⊗ lit 0.20)) /\
     (forall k, k <> "risk_score" -> d' !! k = d !! k)) /\
  (forall x, row d i !! "credit_score" = Some (CFloat x) ->
     gap = of_int 850 ⊖ x) /\
  (forall z, row d i !! "credit_score" = Some (CInt z) ->
     (- 2 ^ 63 <= 850 - z < 2 ^ 63)%Z -> gap = of_int (850 - z)).
Proof.
  intros Hmp Hcu Hgap Hdti.
  assert (Hs : scorable d).
  { intros k. rewrite in_score_columns.
    intros [->|[->|[->| ->]]]; eauto using field_numeric, gap_numeric. }
  apply risk_score_expr_scorable in Hs as [xs Hxs].
  assert (Hc : compute_risk_score (row d i) = Some (score_formula mp cu gap dti)).
  { unfold compute_risk_score. by rewrite Hmp, Hcu, Hgap, Hdti. }
  split; [|split].
  - exists (<["risk_score" := FloatS xs]> d). split; [|split].
    + apply set_risk_score_inr. eauto.
    + rewrite row_lookup, lookup_insert_eq. cbn.
      by rewrite (risk_score_expr_lookup _ _ i Hxs), Hc.
    + intros k Hk. by rewrite lookup_insert_ne.
  - intros x Hx. rewrite Hx in Hgap. cbn in Hgap. congruence.
  - intros z Hz Hfit. rewrite Hz in Hgap. cbn in Hgap.
    rewrite wrap64_small in Hgap by done. congruence.
Qed.

(** C6. Scoring an already scored table again succeeds and leaves the
    same table: [risk_score] and [risk_tier] are recomputed from the raw
    columns, which the first run did not touch, and overwrite themselves
    with identical values.  Only the printed message is repeated. *)
Theorem rescoring_is_idempotent (self self1 : EDA F) :
  calculate_risk_score self = inr self1 ->
  exists self2,
    calculate_risk_score self1 = inr self2 /\
    df self2 = df self1 /\
    stdout self2 = stdout self1 ++ [risk_message].
Proof.
  intros H. pose proof H as Hrun.
  apply calculate_risk_score_inv in H as (d & xs & Hd & Hxs & ->).
  assert (Hcut : cut (FloatS xs) tier_bins tier_labels
                 = inr (CatS (tier_code <$> xs) tier_labels)).
  { revert Hrun. unfold calculate_risk_score, set_risk_score, set_risk_tier.
    rewrite Hd, Hxs. cbn. unfold getitem, setitem.
    rewrite lookup_insert_eq. cbn.
    destruct (cut _ _ _) as [e|t] eqn:E; [done|].
    by rewrite (cut_tiers_inv _ _ E). }
  assert (Hxs' : risk_score_expr (scored_frame d xs) = inr xs).
  { rewrite <- Hxs. apply risk_score_expr_ext. intros k Hk.
    assert (k <> "risk_score" /\ k <> "risk_tier") as [? ?].
    { revert Hk. unfold score_columns. rewrite !elem_of_cons, elem_of_nil.
      by intros [->|[->|[->|[->|[]]]]]. }
    unfold scored_frame. by rewrite !lookup_insert_ne. }
  eexists. split.
  { unfold calculate_risk_score, set_risk_score, set_risk_tier. cbn [df].
    rewrite Hxs'. cbn. unfold getitem, setitem.
    rewrite lookup_insert_eq. cbn. rewrite Hcut. cbn. reflexivity. }
  split; [|reflexivity].
  cbn. f_equal. apply (scored_frame_twice d xs).
Qed.

(** C7. The method maps the table row by row.  On a frame whose four
    score columns are numeric it returns, and the new frame has the
    columns of the old one and [risk_score], [risk_tier]; every other
    column is untouched (same cells at the same positions); and the
    derived cells at position [i] are computed from the record at position
    [i] alone: [risk_score] is the score of that record and [risk_tier]
    the tier of that score. *)
Theorem batch_scoring_is_rowwise (self : EDA F) d :
  bins_accepted ->
  df self = Some d ->
  scorable d ->
  exists self' d',
    calculate_risk_score self = inr self' /\
    df self' = Some d' /\
    dom d' = dom d ∪ {["risk_score"; "risk_tier"]} /\
    (forall k, k <> "risk_score" -> k <> "risk_tier" -> d' !! k = d !! k) /\
    (forall i k, k <> "risk_score" -> k <> "risk_tier" ->
       row d' i !! k = row d i !! k) /\
    (forall i,
       row d' i !! "risk_score" = CFloat <$> compute_risk_score (row d i) /\
       row d' i !! "risk_tier" =
         (fun x => CCat (assign_risk_tier x)) <$> compute_risk_score (row d i)).
Proof.
  intros Hb Hd [xs Hxs]%risk_score_expr_scorable.
  eexists _, (scored_frame d xs).
  split; [by apply calculate_risk_score_run|]. split; [done|].
  assert (Hframe : forall k, k <> "risk_score" -> k <> "risk_tier" ->
            scored_frame d xs !! k = d !! k).
  { intros k ? ?. unfold scored_frame. by rewrite !lookup_insert_ne. }
  split; [|split; [done|split]].
  - unfold scored_frame. rewrite !dom_insert_L. apply set_eq. intros k.
    rewrite !elem_of_union, !elem_of_singleton. tauto.
  - intros i k ? ?. by rewrite !row_lookup, Hframe.
  - intros i. by apply scored_frame_row.
Qed.

End GenericClaims.

Lemma risk_score_is_weighted_sum_witness :
  exists d',
    set_risk_score sample = inr d' /\
    row d' 0 !! "risk_score" =
      Some (CFloat ((6 / 6.0) * 0.30 + 1.0 * 0.25
                    + (550 / 850.0) * 0.25 + 1.0 * 0.20)%float) /\
    (forall k, k <> "risk_score" -> d' !! k = sample !! k).
Proof.
  assert (Hmp : row sample 0 !! "missed_payments" ≫= to_float = Some 6%float)
    by (vm_compute; reflexivity).
  assert (Hcu : row sample 0 !! "credit_utilization" ≫= to_float = Some 1%float)
    by (vm_compute; reflexivity).
  assert (Hgap : (row sample 0 !! "credit_score" ≫= minus_from 850) ≫= to_float
                 = Some 550%float)
    by (vm_compute; reflexivity).
  assert (Hdti : row sample 0 !! "debt_to_income_ratio" ≫= to_float = Some 1%float)
    by (vm_compute; reflexivity).
  destruct (risk_score_is_weighted_sum sample 0 _ _ _ _ Hmp Hcu Hgap Hdti)
    as [(d' & H1 & H2 & H3) _].
  exists d'. split; [exact H1|]. split; [|exact H3].
  rewrite H2. vm_compute. reflexivity.
Defined.

Lemma sample_scored :
  { self1 | calculate_risk_score loaded = inr self1 }.
Proof. eexists. vm_compute. reflexivity. Defined.

Lemma rescoring_is_idempotent_witness :
  exists self1 self2,
    calculate_risk_score loaded = inr self1 /\
    calculate_risk_score self1 = inr self2 /\
    df self2 = df self1 /\
    stdout self2 = stdout self1 ++ [risk_message].
Proof.
  destruct sample_scored as [self1 H1].
  destruct (rescoring_is_idempotent _ _ H1) as (self2 & H2 & H3 & H4).
  exists self1, self2. split; [exact H1|]. split; [exact H2|].
  split; [exact H3|exact H4].
Defined.

Lemma batch_scoring_is_rowwise_witness :
  exists self' d',
    calculate_risk_score loaded = inr self' /\
    df self' = Some d' /\
    dom d' = dom sample ∪ {["risk_score"; "risk_tier"]} /\
    d' !! "income" = sample !! "income" /\
    row d' 1 !! "risk_score" = Some (CFloat 0.5%float) /\
    row d' 1 !! "risk_tier" = Some (CCat (Some "MEDIUM")).
Proof.
  assert (Hb : bins_accepted (F := float)) by (split; vm_compute; reflexivity).
  assert (Hs : scorable sample).
  { apply risk_score_expr_scorable. eexists. vm_compute. reflexivity. }
  destruct (batch_scoring_is_rowwise loaded sample Hb eq_refl Hs)
    as (self' & d' & Hrun & Hd' & Hdom & Hframe & _ & Hrow).
  exists self', d'. split; [exact Hrun|]. split; [exact Hd'|].
  split; [exact Hdom|]. split; [by apply Hframe|].
  destruct (Hrow 1%nat) as [-> ->].
  split; vm_compute; reflexivity.
Defined.

Section Binary64Claims.

Open Scope float_scope.
Implicit Types (d : DataFrame float) (s a b : float).

Lemma leb_below c c' s :
  (s <=? c) = true -> (c' <? c) = false -> (c' <? s) = false.
Proof.
  intros Hs Hc. destruct (c' <? s) eqn:E; [|done].
  by rewrite (F64.ltb_leb_trans _ _ _ E Hs) in Hc.
Qed.

(** C2. The tier follows the half-open intervals of the table: a score in
    (0, 0.30] is LOW, one in (0.30, 0.70] is MEDIUM and one in (0.70, 1.0]
    is HIGH; the upper edge belongs to the interval, the lower one does
    not.  This holds of [assign_risk_tier] on every score, and of the
    column the method writes: [calculate_risk_score] returns on the frame
    and the [risk_tier] cell of a row whose score [s] lies in one of the
    intervals is the label of that interval.  In particular [pd.cut] on
    the program's bins sends 0.30 to LOW, 0.70 to MEDIUM and 0.700001 to
    HIGH. *)
Theorem tier_intervals :
  (forall s,
     ((0 <? s) = true -> (s <=? 0.30) = true ->
        assign_risk_tier s = Some "LOW"%string) /\
     ((0.30 <? s) = true -> (s <=? 0.70) = true ->
        assign_risk_tier s = Some "MEDIUM"%string) /\
     ((0.70 <? s) = true -> (s <=? 1.0) = true ->
        assign_risk_tier s = Some "HIGH"%string)) /\
  (forall (self : EDA float) d i s,
     df self = Some d ->
     compute_risk_score (row d i) = Some s ->
     exists self' d',
       calculate_risk_score self = inr self' /\
       df self' = Some d' /\
       row d' i !! "risk_score" = Some (CFloat s) /\
       ((0 <? s) = true -> (s <=? 0.30) = true ->
          row d' i !! "risk_tier" = Some (CCat (Some "LOW"%string))) /\
       ((0.30 <? s) = true -> (s <=? 0.70) = true ->
          row d' i !! "risk_tier" = Some (CCat (Some "MEDIUM"%string))) /\
       ((0.70 <? s) = true -> (s <=? 1.0) = true ->
          row d' i !! "risk_tier" = Some (CCat (Some "HIGH"%string)))) /\
  cut (FloatS [0.30; 0.70; 0.700001]) tier_bins tier_labels
  = inr (CatS [Some 0%nat; Some 1%nat; Some 2%nat] tier_labels) /\
  assign_risk_tier 0.30 = Some "LOW"%string /\
  assign_risk_tier 0.70 = Some "MEDIUM"%string /\
  assign_risk_tier 0.700001 = Some "HIGH"%string.
Proof.
  assert (Hv : forall s,
     ((0 <? s) = true -> (s <=? 0.30) = true ->
        assign_risk_tier s = Some "LOW"%string) /\
     ((0.30 <? s) = true -> (s <=? 0.70) = true ->
        assign_risk_tier s = Some "MEDIUM"%string) /\
     ((0.70 <? s) = true -> (s <=? 1.0) = true ->
        assign_risk_tier s = Some "HIGH"%string)).
  { intros s. unfold assign_risk_tier. rewrite tier_code_binary64.
    repeat split; intros Hlo Hhi;
      destruct (F64.ltb_not_nan _ _ Hlo) as [_ ->].
    - rewrite (leb_below 0.30 1.0), (leb_below 0.30 0.70),
        (F64.leb_not_ltb _ _ Hhi), Hlo by done. reflexivity.
    - rewrite (leb_below 0.70 1.0), (F64.leb_not_ltb _ _ Hhi), Hlo by done.
      reflexivity.
    - rewrite (F64.leb_not_ltb _ _ Hhi), Hlo. reflexivity. }
  split; [exact Hv|]. split; [|by vm_compute].
  intros self d i s Hd Hs.
  destruct (calculate_risk_score_rows self d) as (self' & d' & Hrun & Hd' & Hrows);
    eauto using bins_accepted_binary64, compute_risk_score_scorable.
  exists self', d'. destruct (Hrows i) as [-> ->]. rewrite Hs. cbn.
  destruct (Hv s) as (Hl & Hm & Hh).
  split; [done|]. split; [done|]. split; [done|].
  split; [|split]; intros Hlo Hhi.
  - by rewrite Hl.
  - by rewrite Hm.
  - by rewrite Hh.
Qed.

(** C5. The tier never goes down when the score goes up: for scores
    [a <= b] that both receive a tier, the rank of the tier of [a] in the
    order LOW < MEDIUM < HIGH is at most the rank of the tier of [b]. *)
Theorem tier_is_monotone a b (la lb : string) :
  (a <=? b) = true ->
  assign_risk_tier a = Some la ->
  assign_risk_tier b = Some lb ->
  exists ra rb,
    tier_rank la = Some ra /\ tier_rank lb = Some rb /\ (ra <= rb)%nat.
Proof.
  intros Hab. unfold assign_risk_tier. rewrite !tier_code_binary64.
  assert (Hup : forall c, (c <? a) = true -> (c <? b) = true)
    by (intros c Hc; exact (F64.ltb_leb_trans _ _ _ Hc Hab)).
  destruct (is_nan a); [done|]. destruct (is_nan b); [done|].
  destruct (1.0 <? a) eqn:A1; [done|]. destruct (1.0 <? b) eqn:B1; [done|].
  destruct (0.70 <? a) eqn:A2.
  { rewrite (Hup _ A2). intros [= <-] [= <-]. by exists 2%nat, 2%nat. }
  destruct (0.30 <? a) eqn:A3.
  { rewrite (Hup _ A3). intros [= <-].
    destruct (0.70 <? b); intros [= <-];
      [exists 1%nat, 2%nat|exists 1%nat, 1%nat]; repeat split; lia. }
  destruct (0 <? a) eqn:A4; [|done].
  rewrite (Hup _ A4). intros [= <-].
  destruct (0.70 <? b); [|destruct (0.30 <? b)]; intros [= <-];
    [exists 0%nat, 2%nat|exists 0%nat, 1%nat|exists 0%nat, 0%nat];
    repeat split; lia.
Qed.

(** C3. A score outside every bin gets no tier and raises nothing: when
    the record at row [i] scores 0 or below (exactly 0, or negative, as
    with a credit score above 850), or above 1.0, the method returns,
    keeps the score, and leaves NaN in [risk_tier] at row [i]. *)
Theorem unclassified_scores (self : EDA float) d i s :
  df self = Some d ->
  compute_risk_score (row d i) = Some s ->
  (s <=? 0) = true \/ (1.0 <? s) = true ->
  assign_risk_tier s = None /\
  exists self' d',
    calculate_risk_score self = inr self' /\
    df self' = Some d' /\
    row d' i !! "risk_score" = Some (CFloat s) /\
    row d' i !! "risk_tier" = Some (CCat None).
Proof.
  intros Hd Hs Hout.
  assert (Ht : assign_risk_tier s = None).
  { unfold assign_risk_tier. rewrite tier_code_binary64.
    destruct (is_nan s); [done|]. destruct Hout as [H0|H1].
    - by rewrite (leb_below 0 1.0), (leb_below 0 0.70), (leb_below 0 0.30),
        (F64.leb_not_ltb _ _ H0) by done.
    - by rewrite H1. }
  split; [done|].
  destruct (calculate_risk_score_rows self d) as (self' & d' & Hrun & Hd' & Hrows);
    eauto using bins_accepted_binary64, compute_risk_score_scorable.
  exists self', d'. destruct (Hrows i) as [-> ->].
  rewrite Hs. cbn. by rewrite Ht.
Qed.

(** What the method leaves at a row whose four cells are known. *)
Lemma calculate_at_row (self : EDA float) d i (mp cs : Z) (cu dti : float) :
  df self = Some d ->
  row d i !! "missed_payments" = Some (CInt mp) ->
  row d i !! "credit_utilization" = Some (CFloat cu) ->
  row d i !! "credit_score" = Some (CInt cs) ->
  row d i !! "debt_to_income_ratio" = Some (CFloat dti) ->
  exists self' d',
    calculate_risk_score self = inr self' /\
    df self' = Some d' /\
    row d' i !! "risk_score"
      = Some (CFloat (score_formula (of_int mp) cu
                        (of_int (wrap64 (850 - cs))) dti)) /\
    row d' i !! "risk_tier"
      = Some (CCat (assign_risk_tier
                      (score_formula (of_int mp) cu
                         (of_int (wrap64 (850 - cs))) dti))).
Proof.
  intros Hd Hmp Hcu Hcs Hdti.
  set (s := score_formula (of_int mp) cu (of_int (wrap64 (850 - cs))) dti).
  assert (Hs : compute_risk_score (row d i) = Some s).
  { unfold compute_risk_score. by rewrite Hmp, Hcu, Hcs, Hdti. }
  destruct (calculate_risk_score_rows self d) as (self' & d' & Hrun & Hd' & Hrows);
    eauto using bins_accepted_binary64, compute_risk_score_scorable.
  exists self', d'. destruct (Hrows i) as [-> ->]. by rewrite Hs.
Qed.

(** C8. The record with six missed payments, full utilisation, credit
    score 300 and a debt-to-income ratio of 1 scores
    [0.30 + 0.25 + ((850 - 300) / 850 * 0.25) + 0.20], which is 0.9118 to
    four decimals, and its tier is HIGH. *)
Theorem worst_record_is_high (self : EDA float) d i :
  df self = Some d ->
  row d i !! "missed_payments" = Some (CInt 6) ->
  row d i !! "credit_utilization" = Some (CFloat 1.0) ->
  row d i !! "credit_score" = Some (CInt 300) ->
  row d i !! "debt_to_income_ratio" = Some (CFloat 1.0) ->
  exists self' d' s,
    calculate_risk_score self = inr self' /\
    df self' = Some d' /\
    row d' i !! "risk_score" = Some (CFloat s) /\
    s = 0.30 + 0.25 + ((850 - 300) / 850 * 0.25) + 0.20 /\
    (0.91175 <=? s) = true /\ (s <? 0.91185) = true /\
    row d' i !! "risk_tier" = Some (CCat (Some "HIGH"%string)).
Proof.
  intros Hd Hmp Hcu Hcs Hdti.
  destruct (calculate_at_row self d i _ _ _ _ Hd Hmp Hcu Hcs Hdti)
    as (self' & d' & Hrun & Hd' & Hscore & Htier).
  assert (E : score_formula (of_int 6) 1.0 (of_int (wrap64 (850 - 300))) 1.0
              = 0.91176470588235303) by (vm_compute; reflexivity).
  rewrite E in Hscore, Htier.
  exists self', d', 0.91176470588235303.
  split; [done|]. split; [done|]. split; [exact Hscore|].
  split; [vm_compute; reflexivity|]. split; [vm_compute; reflexivity|].
  split; [vm_compute; reflexivity|].
  rewrite Htier. vm_compute. reflexivity.
Qed.

(** C9. Ten missed payments are not clamped to six: with the other three
    terms zero the record scores [(10 / 6) * 0.30], which is 0.5, and its
    tier is MEDIUM. *)
Theorem ten_missed_payments_is_medium (self : EDA float) d i :
  df self = Some d ->
  row d i !! "missed_payments" = Some (CInt 10) ->
  row d i !! "credit_utilization" = Some (CFloat 0) ->
  row d i !! "credit_score" = Some (CInt 850) ->
  row d i !! "debt_to_income_ratio" = Some (CFloat 0) ->
  exists self' d' s,
    calculate_risk_score self = inr self' /\
    df self' = Some d' /\
    row d' i !! "risk_score" = Some (CFloat s) /\
    s = (10 / 6) * 0.30 /\ s = 0.5 /\
    row d' i !! "risk_tier" = Some (CCat (Some "MEDIUM"%string)).
Proof.
  intros Hd Hmp Hcu Hcs Hdti.
  destruct (calculate_at_row self d i _ _ _ _ Hd Hmp Hcu Hcs Hdti)
    as (self' & d' & Hrun & Hd' & Hscore & Htier).
  assert (E : score_formula (of_int 10) 0 (of_int (wrap64 (850 - 850))) 0
              = 0.5) by (vm_compute; reflexivity).
  rewrite E in Hscore, Htier.
  exists self', d', 0.5.
  split; [done|]. split; [done|]. split; [exact Hscore|].
  split; [vm_compute; reflexivity|]. split; [reflexivity|].
  rewrite Htier. vm_compute. reflexivity.
Qed.




End Binary64Claims.

Lemma tier_intervals_witness :
  assign_risk_tier 0.1%float = Some "LOW" /\
  assign_risk_tier 0.5%float = Some "MEDIUM" /\
  assign_risk_tier 1.0%float = Some "HIGH" /\
  (exists self' d',
     calculate_risk_score loaded_risky = inr self' /\ df self' = Some d' /\
     row d' 2 !! "risk_score" = Some (CFloat 0.1%float) /\
     row d' 2 !! "risk_tier" = Some (CCat (Some "LOW"))) /\
  (exists self' d',
     calculate_risk_score loaded = inr self' /\ df self' = Some d' /\
     row d' 1 !! "risk_score" = Some (CFloat 0.5%float) /\
     row d' 1 !! "risk_tier" = Some (CCat (Some "MEDIUM"))) /\
  (exists self' d' s,
     calculate_risk_score loaded = inr self' /\ df self' = Some d' /\
     row d' 0 !! "risk_score" = Some (CFloat s) /\
     (0.91 <? s)%float = true /\
     row d' 0 !! "risk_tier" = Some (CCat (Some "HIGH"))).
Proof.
  destruct tier_intervals as (H & Hrow & _).
  split; [|split; [|split; [|split; [|split]]]].
  - apply (H 0.1%float); vm_compute; reflexivity.
  - apply (H 0.5%float); vm_compute; reflexivity.
  - apply (H 1.0%float); vm_compute; reflexivity.
  - assert (Hs : compute_risk_score (row sample_risky 2) = Some 0.1%float)
      by (vm_compute; reflexivity).
    destruct (Hrow loaded_risky sample_risky 2%nat 0.1%float eq_refl Hs)
      as (self' & d' & Hrun & Hd' & Hsc & Hl & _).
    exists self', d'. split; [exact Hrun|]. split; [exact Hd'|].
    split; [exact Hsc|]. apply Hl; vm_compute; reflexivity.
  - assert (Hs : compute_risk_score (row sample 1) = Some 0.5%float)
      by (vm_compute; reflexivity).
    destruct (Hrow loaded sample 1%nat 0.5%float eq_refl Hs)
      as (self' & d' & Hrun & Hd' & Hsc & _ & Hm & _).
    exists self', d'. split; [exact Hrun|]. split; [exact Hd'|].
    split; [exact Hsc|]. apply Hm; vm_compute; reflexivity.
  - assert (Hs : compute_risk_score (row sample 0)
                 = Some (6 / 6.0 * 0.30 + 1.0 * 0.25
                         + 550 / 850.0 * 0.25 + 1.0 * 0.20)%float)
      by (vm_compute; reflexivity).
    destruct (Hrow loaded sample 0%nat _ eq_refl Hs)
      as (self' & d' & Hrun & Hd' & Hsc & _ & _ & Hh).
    exists self', d', (6 / 6.0 * 0.30 + 1.0 * 0.25
                       + 550 / 850.0 * 0.25 + 1.0 * 0.20)%float.
    split; [exact Hrun|]. split; [exact Hd'|]. split; [exact Hsc|].
    split; [vm_compute; reflexivity|]. apply Hh; vm_compute; reflexivity.
Defined.

Lemma tier_is_monotone_witness :
  exists ra rb,
    tier_rank "LOW" = Some ra /\ tier_rank "HIGH" = Some rb /\ (ra <= rb)%nat.
Proof.
  apply (tier_is_monotone 0.30%float 0.9%float); vm_compute; reflexivity.
Defined.

Lemma unclassified_scores_witness :
  (exists self' d',
     calculate_risk_score loaded = inr self' /\ df self' = Some d' /\
     row d' 3 !! "risk_score" = Some (CFloat 0%float) /\
     row d' 3 !! "risk_tier" = Some (CCat None)) /\
  (exists self' d',
     calculate_risk_score loaded = inr self' /\ df self' = Some d' /\
     row d' 4 !! "risk_score" = Some (CFloat 1.5%float) /\
     row d' 4 !! "risk_tier" = Some (CCat None)) /\
  (exists self' d' s,
     calculate_risk_score loaded_over_850 = inr self' /\ df self' = Some d' /\
     (s <? 0)%float = true /\
     row d' 0 !! "risk_score" = Some (CFloat s) /\
     row d' 0 !! "risk_tier" = Some (CCat None)).
Proof.
  split; [|split].
  - refine (proj2 (unclassified_scores loaded sample 3 0%float eq_refl _ _)).
    + vm_compute. reflexivity.
    + left. vm_compute. reflexivity.
  - refine (proj2 (unclassified_scores loaded sample 4 1.5%float eq_refl _ _)).
    + vm_compute. reflexivity.
    + right. vm_compute. reflexivity.
  - assert (Hs : compute_risk_score (row sample_over_850 0)
                 = Some (0 / 6.0 * 0.30 + 0.0 * 0.25
                         + (-50) / 850.0 * 0.25 + 0.0 * 0.20)%float)
      by (vm_compute; reflexivity).
    assert (Hneg : ((0 / 6.0 * 0.30 + 0.0 * 0.25
                     + (-50) / 850.0 * 0.25 + 0.0 * 0.20) <=? 0)%float = true)
      by (vm_compute; reflexivity).
    destruct (proj2 (unclassified_scores loaded_over_850 sample_over_850 0 _
                       eq_refl Hs (or_introl Hneg)))
      as (self' & d' & Hrun & Hd' & Hsc & Ht).
    exists self', d', (0 / 6.0 * 0.30 + 0.0 * 0.25
                       + (-50) / 850.0 * 0.25 + 0.0 * 0.20)%float.
    split; [exact Hrun|]. split; [exact Hd'|].
    split; [vm_compute; reflexivity|]. split; [exact Hsc|exact Ht].
Defined.

Lemma worst_record_is_high_witness :
  exists self' d' s,
    calculate_risk_score loaded = inr self' /\
    df self' = Some d' /\
    row d' 0 !! "risk_score" = Some (CFloat s) /\
    s = (0.30 + 0.25 + ((850 - 300) / 850 * 0.25) + 0.20)%float /\
    (0.91175 <=? s)%float = true /\ (s <? 0.91185)%float = true /\
    row d' 0 !! "risk_tier" = Some (CCat (Some "HIGH")).
Proof.
  assert (H1 : row sample 0 !! "missed_payments" = Some (CInt 6))
    by (vm_compute; reflexivity).
  assert (H2 : row sample 0 !! "credit_utilization" = Some (CFloat 1.0%float))
    by (vm_compute; reflexivity).
  assert (H3 : row sample 0 !! "credit_score" = Some (CInt 300))
    by (vm_compute; reflexivity).
  assert (H4 : row sample 0 !! "debt_to_income_ratio" = Some (CFloat 1.0%float))
    by (vm_compute; reflexivity).
  exact (worst_record_is_high loaded sample 0 eq_refl H1 H2 H3 H4).
Defined.

Lemma ten_missed_payments_is_medium_witness :
  exists self' d' s,
    calculate_risk_score loaded = inr self' /\
    df self' = Some d' /\
    row d' 1 !! "risk_score" = Some (CFloat s) /\
    s = ((10 / 6) * 0.30)%float /\ s = 0.5%float /\
    row d' 1 !! "risk_tier" = Some (CCat (Some "MEDIUM")).
Proof.
  assert (H1 : row sample 1 !! "missed_payments" = Some (CInt 10))
    by (vm_compute; reflexivity).
  assert (H2 : row sample 1 !! "credit_utilization" = Some (CFloat 0%float))
    by (vm_compute; reflexivity).
  assert (H3 : row sample 1 !! "credit_score" = Some (CInt 850))
    by (vm_compute; reflexivity).
  assert (H4 : row sample 1 !! "debt_to_income_ratio" = Some (CFloat 0%float))
    by (vm_compute; reflexivity).
  exact (ten_missed_payments_is_medium loaded sample 1 eq_refl H1 H2 H3 H4).
Defined.



Section ExactClaims.

Open Scope Q_scope.
Implicit Types (d : DataFrame (option Q)).

(** The exact score of a record whose four fields are the rationals
    [mp], [cu], [cs] and [dti]. *)
Lemma exact_score_formula (mp cu gap dti : Q) :
  score_formula (Some mp) (Some cu) (Some gap) (Some dti)
  = Some (mp / 6.0 * 0.30 + cu * 0.25 + gap / 850.0 * 0.25 + dti * 0.20).
Proof. reflexivity. Qed.

Lemma exact_gap (c : Cell (option Q)) (cs : Q) :
  to_float c = Some (Some cs) -> 300 <= cs <= 850 ->
  exists gap, minus_from 850 c ≫= to_float = Some (Some gap) /\
    gap == 850 - cs.
Proof.
  destruct c as [z|[x|]| |]; cbn; try done; intros [= <-] [Hlo Hhi].
  - assert (300 <= z <= 850)%Z as Hz.
    { change (inject_Z 300 <= inject_Z z) in Hlo.
      change (inject_Z z <= inject_Z 850) in Hhi.
      rewrite <- Zle_Qle in Hlo, Hhi. done. }
    eexists. split; [reflexivity|].
    rewrite wrap64_small by lia.
    unfold Z.sub. rewrite inject_Z_plus, inject_Z_opp. reflexivity.
  - eexists. split; [reflexivity|]. reflexivity.
Qed.

(** Over exact arithmetic the score of a record with [missed_payments]
    in [0,6], [credit_score] in [300,850], [credit_utilization] and
    [debt_to_income_ratio] in [0,1], integers or not, lies in [0,1]. *)
Lemma exact_score_in_unit_interval
    (self : EDA (option Q)) d i (mp cu cs dti : Q) :
  df self = Some d ->
  row d i !! "missed_payments" ≫= to_float = Some (Some mp) ->
  row d i !! "credit_utilization" ≫= to_float = Some (Some cu) ->
  row d i !! "credit_score" ≫= to_float = Some (Some cs) ->
  row d i !! "debt_to_income_ratio" ≫= to_float = Some (Some dti) ->
  0 <= mp <= 6 -> 300 <= cs <= 850 -> 0 <= cu <= 1 -> 0 <= dti <= 1 ->
  exists self' d' s,
    calculate_risk_score self = inr self' /\
    df self' = Some d' /\
    row d' i !! "risk_score" = Some (CFloat (Some s)) /\
    0 <= s <= 1.
Proof.
  intros Hd Hmp Hcu Hcs Hdti Bmp Bcs Bcu Bdti.
  destruct (row d i !! "credit_score") as [c|] eqn:Rcs; [|done]. cbn in Hcs.
  destruct (exact_gap c cs Hcs Bcs) as (gap & Hgap & Egap).
  assert (Hs : compute_risk_score (row d i)
               = Some (score_formula (Some mp) (Some cu) (Some gap) (Some dti))).
  { unfold compute_risk_score.
    rewrite Hmp, Hcu, Rcs, Hdti. cbn [mbind option_bind].
    by rewrite Hgap. }
  rewrite exact_score_formula in Hs.
  destruct (calculate_risk_score_rows self d) as (self' & d' & Hrun & Hd' & Hrows);
    eauto using bins_accepted_exact, compute_risk_score_scorable.
  eexists self', d', _. split; [done|]. split; [done|].
  destruct (Hrows i) as [-> _]. rewrite Hs. split; [reflexivity|].
  rewrite Egap. unfold Qdiv.
  change (/ 6.0) with (10 # 60). change (/ 850.0) with (10 # 8500). lra.
Qed.

End ExactClaims.

(** The bound on the first customer of [sample_exact]. *)
Lemma exact_score_in_unit_interval_sample :
  exists self' d' s,
    calculate_risk_score loaded_exact = inr self' /\
    df self' = Some d' /\
    row d' 0 !! "risk_score" = Some (CFloat (Some s)) /\
    (0 <= s <= 1)%Q.
Proof.
  assert (H1 : row sample_exact 0 !! "missed_payments" ≫= to_float
               = Some (Some (inject_Z 6))) by (vm_compute; reflexivity).
  assert (H2 : row sample_exact 0 !! "credit_utilization" ≫= to_float
               = Some (Some 1.0%Q)) by (vm_compute; reflexivity).
  assert (H3 : row sample_exact 0 !! "credit_score" ≫= to_float
               = Some (Some (inject_Z 300))) by (vm_compute; reflexivity).
  assert (H4 : row sample_exact 0 !! "debt_to_income_ratio" ≫= to_float
               = Some (Some 1.0%Q)) by (vm_compute; reflexivity).
  apply (exact_score_in_unit_interval loaded_exact sample_exact 0
           _ _ _ _ eq_refl H1 H2 H3 H4);
    split; vm_compute; discriminate.
Qed.


Section Binary64Range.

Import Binary64.
Open Scope Q_scope.

Lemma withinb_within x q : withinb x q = true -> within x q.
Proof.
  unfold withinb, within, bound_ok.
  destruct (Prim2SF x) as [s|s| |[] m e]; try discriminate;
    intros H; by apply Qle_bool_iff.
Qed.

Lemma eps_small : eps <= 1 # 1000.
Proof.
  apply Qle_trans with (2 ^ (-10)).
  - unfold eps. apply Rounding.pow2_le. lia.
  - apply Qle_bool_iff. reflexivity.
Qed.

(** Every integer of a range passes a test that the list of them passes. *)
Lemma forallb_range (P : Z -> bool) (lo : Z) (n : nat) :
  forallb P ((fun k => lo + Z.of_nat k)%Z <$> seq 0 n) = true ->
  forall z, (lo <= z < lo + Z.of_nat n)%Z -> P z = true.
Proof.
  intros H z Hz. rewrite forallb_forall in H. apply H.
  apply list_elem_of_In, list_elem_of_fmap.
  exists (Z.to_nat (z - lo)). split; [lia|].
  apply elem_of_seq. lia.
Qed.

(** The first term is at most 3/10 for 0 to 6 missed payments. *)
Lemma term1_within (mp : Z) :
  (0 <= mp <= 6)%Z ->
  within ((of_int mp ⊘ lit 6.0) ⊗ lit 0.30) (3 # 10).
Proof.
  intros H. apply withinb_within.
  apply (forallb_range (fun z => withinb ((of_int z ⊘ lit 6.0) ⊗ lit 0.30) (3 # 10))
           0 7); [vm_compute; reflexivity|lia].
Qed.

(** The third term is at most 1/5 for a credit score from 300 to 850,
    whether the column holds integers or floats. *)
Lemma term3_within (cs : Z) :
  (300 <= cs <= 850)%Z ->
  within ((of_int (wrap64 (850 - cs)) ⊘ lit 850.0) ⊗ lit 0.25) (1 # 5) /\
  within (((of_int 850 ⊖ of_int cs) ⊘ lit 850.0) ⊗ lit 0.25) (1 # 5).
Proof.
  intros H. split; apply withinb_within.
  - apply (forallb_range
             (fun z => withinb ((of_int (wrap64 (850 - z)) ⊘ lit 850.0) ⊗ lit 0.25) (1 # 5))
             300 551); [vm_compute; reflexivity|lia].
  - apply (forallb_range
             (fun z => withinb (((of_int 850 ⊖ of_int z) ⊘ lit 850.0) ⊗ lit 0.25) (1 # 5))
             300 551); [vm_compute; reflexivity|lia].
Qed.

Lemma score_formula_within (t1 t3 cu dti : float) :
  within t1 (3 # 10) -> within t3 (1 # 5) -> within cu 1 -> within dti 1 ->
  within (t1 ⊕ cu ⊗ lit 0.25 ⊕ t3 ⊕ dti ⊗ lit 0.20) (97 # 100).
Proof.
  intros H1 H3 Hcu Hdti.
  pose proof Rounding.eps_pos as Hp. pose proof eps_small as He.
  assert (Hc25 : within (lit 0.25) (1 # 4))
    by (apply withinb_within; vm_compute; reflexivity).
  assert (Hc20 : within (lit 0.20) (21 # 100))
    by (apply withinb_within; vm_compute; reflexivity).
  pose proof (Rounding.mul_within _ _ _ _ Hcu Hc25 ltac:(lra)) as H2.
  pose proof (Rounding.mul_within _ _ _ _ Hdti Hc20 ltac:(lra)) as H4.
  pose proof (Rounding.add_within _ _ _ _ H1 H2 ltac:(lra)) as S1.
  pose proof (Rounding.add_within _ _ _ _ S1 H3 ltac:(lra)) as S2.
  pose proof (Rounding.add_within _ _ _ _ S2 H4 ltac:(lra)) as S3.
  eapply Rounding.within_le; [exact S3|]. lra.
Qed.

(** C4. For every record with [missed_payments] in [0,6] and
    [credit_score] in [300,850] (integers, in an integer or a float
    column), [credit_utilization] and [debt_to_income_ratio] in [0,1], the
    method returns and the [risk_score] it leaves for the record is a
    double [s] with [0 <= s <= 1].  This is the score as the code computes
    it, in binary64 with its rounding. *)
Theorem valid_record_score_in_unit_interval
    (self : EDA float) (d : DataFrame float) i (mp cs : Z) (cu dti : float) :
  df self = Some d ->
  int_valued (row d i !! "missed_payments") mp ->
  row d i !! "credit_utilization" ≫= to_float = Some cu ->
  int_valued (row d i !! "credit_score") cs ->
  row d i !! "debt_to_income_ratio" ≫= to_float = Some dti ->
  (0 <= mp <= 6)%Z -> (300 <= cs <= 850)%Z ->
  (0 <=? cu)%float = true -> (cu <=? 1)%float = true ->
  (0 <=? dti)%float = true -> (dti <=? 1)%float = true ->
  exists self' d' s,
    calculate_risk_score self = inr self' /\
    df self' = Some d' /\
    row d' i !! "risk_score" = Some (CFloat s) /\
    (0 <=? s)%float = true /\ (s <=? 1)%float = true.
Proof.
  intros Hd Hmp Hcu Hcs Hdti Bmp Bcs Bcu0 Bcu1 Bdti0 Bdti1.
  destruct (term3_within cs Bcs) as [G1 G2].
  assert (exists gap,
            (row d i !! "credit_score" ≫= minus_from 850) ≫= to_float = Some gap /\
            within ((gap ⊘ lit 850.0) ⊗ lit 0.25) (1 # 5)) as (gap & Hgap & Wgap).
  { destruct Hcs as [-> | ->]; eexists; (split; [reflexivity|]); assumption. }
  assert (Hmp' : row d i !! "missed_payments" ≫= to_float = Some (of_int mp))
    by (by destruct Hmp as [-> | ->]).
  assert (Hs : compute_risk_score (row d i)
               = Some (score_formula (of_int mp) cu gap dti)).
  { unfold compute_risk_score. by rewrite Hmp', Hcu, Hgap, Hdti. }
  destruct (calculate_risk_score_rows self d) as (self' & d' & Hrun & Hd' & Hrows);
    eauto using bins_accepted_binary64, compute_risk_score_scorable.
  exists self', d', (score_formula (of_int mp) cu gap dti).
  split; [exact Hrun|]. split; [exact Hd'|].
  destruct (Hrows i) as [-> _]. rewrite Hs. split; [reflexivity|].
  apply (Rounding.leb_of_within _ (97 # 100)); [|reflexivity].
  apply score_formula_within.
  - by apply term1_within.
  - exact Wgap.
  - by apply Rounding.within_of_leb.
  - by apply Rounding.within_of_leb.
Qed.

End Binary64Range.

Lemma valid_record_score_in_unit_interval_witness :
  exists self' d' s,
    calculate_risk_score loaded = inr self' /\
    df self' = Some d' /\
    row d' 0 !! "risk_score" = Some (CFloat s) /\
    (0 <=? s)%float = true /\ (s <=? 1)%float = true.
Proof.
  assert (H1 : int_valued (row sample 0 !! "missed_payments") 6)
    by (left; vm_compute; reflexivity).
  assert (H2 : row sample 0 !! "credit_utilization" ≫= to_float = Some 1%float)
    by (vm_compute; reflexivity).
  assert (H3 : int_valued (row sample 0 !! "credit_score") 300)
    by (left; vm_compute; reflexivity).
  assert (H4 : row sample 0 !! "debt_to_income_ratio" ≫= to_float = Some 1%float)
    by (vm_compute; reflexivity).
  assert (B1 : (0 <= 6 <= 6)%Z) by lia.
  assert (B2 : (300 <= 300 <= 850)%Z) by lia.
  exact (valid_record_score_in_unit_interval loaded sample 0 6 300 1 1
           eq_refl H1 H2 H3 H4 B1 B2 eq_refl eq_refl eq_refl eq_refl).
Defined.

(** * The rest of the class

    Properties of the counting, selecting and bracketing code around
    [calculate_risk_score]. *)

Section ReportTheory.

Context {F : Type} {A : Arith F}.
Implicit Types (d : DataFrame F) (s : Series F).

(** *** Sorting by count *)

Lemma insert_by_count_perm e l : insert_by_count e l ≡ₚ e :: l.
Proof.
  induction l as [|e' l IH]; simpl; [done|].
  destruct (_ <=? _)%nat; [done|]. rewrite IH. apply Permutation_swap.
Qed.

Lemma sort_by_count_perm l : sort_by_count l ≡ₚ l.
Proof.
  induction l as [|e l IH]; simpl; [done|].
  by rewrite insert_by_count_perm, IH.
Qed.

Lemma insert_by_count_sorted e l :
  StronglySorted (fun a b => (b.2 <= a.2)%nat) l ->
  StronglySorted (fun a b => (b.2 <= a.2)%nat) (insert_by_count e l).
Proof.
  induction 1 as [|e' l Hl IH Hall]; simpl.
  - repeat constructor.
  - destruct (Nat.leb_spec e'.2 e.2).
    + constructor; [by constructor|]. constructor; [done|].
      eapply Forall_impl; [exact Hall|]. simpl. lia.
    + constructor; [done|].
      rewrite insert_by_count_perm. constructor; [lia|done].
Qed.

Lemma sort_by_count_sorted l :
  StronglySorted (fun a b => (b.2 <= a.2)%nat) (sort_by_count l).
Proof.
  induction l; simpl; [constructor|]. by apply insert_by_count_sorted.
Qed.

(** *** The codes of [pd.cut] *)

Lemma searchsorted_left_le (bins : list F) x :
  (searchsorted_left bins x <= length bins)%nat.
Proof. unfold searchsorted_left. apply List.filter_length_le. Qed.

Lemma cut_code_lt (bins : list F) x j :
  cut_code bins x = Some j -> (S j < length bins)%nat.
Proof.
  unfold cut_code. pose proof (searchsorted_left_le bins x).
  destruct (isna x); [done|]. simpl.
  destruct (Nat.eqb_spec (searchsorted_left bins x) (length bins)); [done|].
  destruct (Nat.eqb_spec (searchsorted_left bins x) 0); [done|].
  simpl. intros [= <-]. lia.
Qed.

Lemma tier_code_cases (x : F) :
  tier_code x = None \/ tier_code x = Some 0%nat \/
  tier_code x = Some 1%nat \/ tier_code x = Some 2%nat.
Proof.
  destruct (tier_code x) as [j|] eqn:E; [|by left].
  apply cut_code_lt in E. change (length tier_bins) with 4%nat in E.
  right. destruct j as [|[|[|]]]; auto; lia.
Qed.

Lemma assign_risk_tier_code (x : F) j t :
  tier_labels !! j = Some t ->
  assign_risk_tier x = Some t <-> tier_code x = Some j.
Proof.
  unfold assign_risk_tier. intros Hj.
  destruct (tier_code_cases x) as [->|[->|[->| ->]]]; simpl;
    destruct j as [|[|[|]]]; simpl in Hj; simplify_eq; split; done.
Qed.

Lemma assign_risk_tier_None (x : F) :
  assign_risk_tier x = None <-> tier_code x = None.
Proof.
  unfold assign_risk_tier.
  destruct (tier_code_cases x) as [->|[->|[->| ->]]]; simpl; split; done.
Qed.

(** Counting the rows of a tier on the codes or on the scores. *)
Lemma count_codes (xs : list F) j t :
  tier_labels !! j = Some t ->
  length (filter (fun c => c = Some j) (tier_code <$> xs))
  = tier_count xs (Some t).
Proof.
  intros Hj. unfold tier_count.
  induction xs as [|x xs IH]; [done|]. cbn [fmap list_fmap].
  rewrite !filter_cons.
  destruct (decide (tier_code x = Some j)) as [E|E];
    destruct (decide (assign_risk_tier x = Some t)) as [E'|E']; simpl;
    try (by rewrite IH).
  - by apply (assign_risk_tier_code x j t Hj) in E.
  - by apply (assign_risk_tier_code x j t Hj) in E'.
Qed.

Lemma count_tiers_total (xs : list F) :
  (tier_count xs (Some "HIGH") + tier_count xs (Some "MEDIUM")
   + tier_count xs (Some "LOW") + tier_count xs None)%nat
  = length xs.
Proof.
  unfold tier_count. induction xs as [|x xs IH]; [done|].
  rewrite !filter_cons.
  assert (assign_risk_tier x = None \/ assign_risk_tier x = Some "LOW" \/
          assign_risk_tier x = Some "MEDIUM" \/
          assign_risk_tier x = Some "HIGH") as [E|[E|[E|E]]].
  { unfold assign_risk_tier.
    destruct (tier_code_cases x) as [->|[->|[->| ->]]]; simpl; auto. }
  all: rewrite !E; repeat (case_decide; try done); simpl; lia.
Qed.

Lemma category_counts_tiers (codes : list (option nat)) :
  category_counts codes tier_labels
  = [("LOW", length (filter (fun c => c = Some 0%nat) codes));
     ("MEDIUM", length (filter (fun c => c = Some 1%nat) codes));
     ("HIGH", length (filter (fun c => c = Some 2%nat) codes))].
Proof. reflexivity. Qed.

(** A label of the three is in every reordering of the counts, with its
    count. *)
Lemma tiers_reordered (l : list (string * nat)) (a b c : nat) t n :
  l ≡ₚ [("LOW", a); ("MEDIUM", b); ("HIGH", c)] ->
  (t, n) ∈ [("LOW", a); ("MEDIUM", b); ("HIGH", c)] ->
  contains l t = true /\ loc l t = Some n.
Proof.
  intros Hp Ht. split.
  - unfold contains. apply bool_decide_eq_true.
    apply list_elem_of_fmap. exists (t, n). split; [done|]. by rewrite Hp.
  - unfold loc.
    destruct (list_find (fun e => e.1 = t) l) as [[i e]|] eqn:E.
    + apply list_find_Some in E as (Hi & He & _).
      apply list_elem_of_lookup_2 in Hi. rewrite Hp in Hi.
      simpl. f_equal. destruct e as [t' n']. simpl in *. subst t'.
      rewrite !elem_of_cons, elem_of_nil in Hi, Ht.
      destruct Hi as [?|[?|[?|[]]]], Ht as [?|[?|[?|[]]]]; simplify_eq; done.
    + apply list_find_None in E. rewrite Forall_forall in E.
      exfalso. apply (E (t, n)); [by rewrite Hp|done].
Qed.

Lemma calculate_risk_score_columns (self self' : EDA F) :
  calculate_risk_score self = inr self' ->
  exists d xs,
    df self = Some d /\ risk_score_expr d = inr xs /\
    df self' = Some (scored_frame d xs) /\
    scored_frame d xs !! "risk_score" = Some (FloatS xs) /\
    scored_frame d xs !! "risk_tier"
      = Some (CatS (tier_code <$> xs) tier_labels).
Proof.
  intros (d & xs & Hd & Hxs & ->)%calculate_risk_score_inv.
  exists d, xs. repeat split; try done; unfold scored_frame.
  - by rewrite lookup_insert_ne, lookup_insert_eq.
  - by rewrite lookup_insert_eq.
Qed.

End ReportTheory.

Section ReportProperties.

Context {F : Type} {A : Arith F}.
Implicit Types (d : DataFrame F) (s : Series F).

(** X1. The tier distribution of the report, after scoring: each of HIGH,
    MEDIUM and LOW gets a line, also a tier no customer has, with the
    number of customers whose score has that tier; customers without a
    tier are in none of the three counts, so the counts add up to the
    number of customers less the unclassified ones. *)
Theorem tier_breakdown_counts (self self' : EDA F) :
  calculate_risk_score self = inr self' ->
  exists d' codes xs,
    df self' = Some d' /\
    d' !! "risk_score" = Some (FloatS xs) /\
    d' !! "risk_tier" = Some (CatS codes tier_labels) /\
    tier_breakdown (value_counts codes tier_labels)
    = [("HIGH", tier_count xs (Some "HIGH"));
       ("MEDIUM", tier_count xs (Some "MEDIUM"));
       ("LOW", tier_count xs (Some "LOW"))] /\
    (tier_count xs (Some "HIGH") + tier_count xs (Some "MEDIUM")
     + tier_count xs (Some "LOW") + tier_count xs None)%nat
    = length xs.
Proof.
  intros (d & xs & Hd & Hxs & Hd' & Hs & Ht)%calculate_risk_score_columns.
  exists (scored_frame d xs), (tier_code <$> xs), xs.
  repeat split; try done; [|apply count_tiers_total].
  pose proof (sort_by_count_perm (category_counts (tier_code <$> xs) tier_labels))
    as Hp.
  rewrite category_counts_tiers in Hp.
  rewrite (count_codes xs 0 "LOW"), (count_codes xs 1 "MEDIUM"),
    (count_codes xs 2 "HIGH") in Hp by done.
  unfold tier_breakdown, value_counts.
  rewrite category_counts_tiers.
  rewrite (count_codes xs 0 "LOW"), (count_codes xs 1 "MEDIUM"),
    (count_codes xs 2 "HIGH") by done.
  cbn [omap list_omap].
  destruct (tiers_reordered _ _ _ _ "HIGH" (tier_count xs (Some "HIGH")) Hp)
    as [-> ->]; [rewrite !elem_of_cons; auto|].
  destruct (tiers_reordered _ _ _ _ "MEDIUM" (tier_count xs (Some "MEDIUM")) Hp)
    as [-> ->]; [rewrite !elem_of_cons; auto|].
  destruct (tiers_reordered _ _ _ _ "LOW" (tier_count xs (Some "LOW")) Hp)
    as [-> ->]; [rewrite !elem_of_cons; auto|].
  reflexivity.
Qed.

(** X2. The bars of the tier plot, after scoring: there are three, ordered
    by falling count, and the colours green, orange and red go to the
    first, second and third bar, that is to the most frequent tier, the
    next and the least frequent one, whichever tiers these are. *)
Theorem bar_colours_follow_counts (self self' : EDA F) :
  calculate_risk_score self = inr self' ->
  exists d' codes t1 c1 t2 c2 t3 c3,
    df self' = Some d' /\
    d' !! "risk_tier" = Some (CatS codes tier_labels) /\
    risk_bars (value_counts codes tier_labels)
    = [(t1, c1, "green"); (t2, c2, "orange"); (t3, c3, "red")] /\
    (c3 <= c2 <= c1)%nat /\
    [(t1, c1); (t2, c2); (t3, c3)] ≡ₚ category_counts codes tier_labels.
Proof.
  intros (d & xs & Hd & Hxs & Hd' & Hs & Ht)%calculate_risk_score_columns.
  pose proof (sort_by_count_perm (category_counts (tier_code <$> xs) tier_labels))
    as Hp.
  pose proof (sort_by_count_sorted (category_counts (tier_code <$> xs) tier_labels))
    as Hso.
  fold (value_counts (tier_code <$> xs) tier_labels) in Hp, Hso.
  pose proof (Permutation_length Hp) as Hl.
  destruct (value_counts (tier_code <$> xs) tier_labels)
    as [|[t1 c1] [|[t2 c2] [|[t3 c3] [|]]]] eqn:E; try done.
  exists (scored_frame d xs), (tier_code <$> xs), t1, c1, t2, c2, t3, c3.
  rewrite E. repeat split; try done.
  - apply StronglySorted_inv in Hso as [Hso _].
    apply StronglySorted_inv in Hso as [_ H]. by inversion H.
  - apply StronglySorted_inv in Hso as [_ H]. by inversion H.
Qed.

End ReportProperties.

Section MaskTheory.

Context {F : Type} {A : Arith F}.
Implicit Types (d : DataFrame F) (s : Series F).

Lemma lookup_shifted {X} (x : X) xs (l : list nat) j :
  (S <$> l) !! j ≫= ((x :: xs) !!.) = l !! j ≫= (xs !!.).
Proof. rewrite list_lookup_fmap. by destruct (l !! j). Qed.

Lemma select_lookup {X} (xs : list X) mask j :
  select xs mask !! j = true_positions mask !! j ≫= (xs !!.).
Proof.
  revert mask j. induction xs as [|x xs IH]; intros mask j.
  - destruct mask; simpl; try done. rewrite lookup_nil.
    destruct (_ !! j) as [i|]; simpl; [by rewrite lookup_nil|done].
  - destruct mask as [|b mask]; [done|]. cbn [select true_positions].
    destruct b.
    + destruct j as [|j]; [done|].
      change (select xs mask !! j
              = (S <$> true_positions mask) !! j ≫= ((x :: xs) !!.)).
      by rewrite lookup_shifted.
    + rewrite app_nil_l. by rewrite lookup_shifted.
Qed.

Lemma elem_of_true_positions mask i :
  i ∈ true_positions mask <-> mask !! i = Some true.
Proof.
  revert i. induction mask as [|b mask IH]; intros i; simpl.
  - by rewrite elem_of_nil.
  - rewrite elem_of_app, list_elem_of_fmap. destruct i as [|i]; simpl.
    + split.
      * intros [H|(j & ? & _)]; [|done]. destruct b; [done|].
        by apply elem_of_nil in H.
      * intros [= ->]. left. by apply list_elem_of_singleton.
    + rewrite <- IH. split.
      * intros [H|(j & [= ->] & ?)]; [|done].
        destruct b; [by apply list_elem_of_singleton in H|by apply elem_of_nil in H].
      * intros H. right. eauto.
Qed.

Lemma true_positions_sorted mask : StronglySorted lt (true_positions mask).
Proof.
  induction mask as [|b mask IH]; simpl; [constructor|].
  assert (StronglySorted lt (S <$> true_positions mask)) as Hs.
  { apply (StronglySorted_fmap S lt lt); [|done]. intros x y. lia. }
  destruct b; simpl; [|done]. constructor; [done|].
  apply Forall_fmap, Forall_forall. intros x _. simpl. lia.
Qed.

Lemma length_true_positions {X} (f : X -> bool) (xs : list X) :
  length (true_positions (f <$> xs))
  = length (filter (fun x => f x = true) xs).
Proof.
  induction xs as [|x xs IH]; [done|]. cbn [fmap list_fmap true_positions].
  rewrite filter_cons, length_app, length_fmap, IH.
  destruct (f x); by case_decide.
Qed.

Lemma cell_at_series_mask s mask j :
  cell_at (series_mask s mask) j = true_positions mask !! j ≫= cell_at s.
Proof.
  destruct s; simpl; rewrite select_lookup;
    by destruct (true_positions mask !! j).
Qed.

Lemma row_getitem_mask d mask j :
  row (getitem_mask d mask) j
  = from_option (row d) ∅ (true_positions mask !! j).
Proof.
  apply map_eq. intros k. rewrite row_lookup. unfold getitem_mask.
  rewrite lookup_fmap.
  destruct (true_positions mask !! j) as [i|] eqn:E; simpl.
  - rewrite row_lookup. destruct (d !! k) as [s|]; simpl; [|done].
    by rewrite cell_at_series_mask, E.
  - rewrite lookup_empty. destruct (d !! k) as [s|]; simpl; [|done].
    by rewrite cell_at_series_mask, E.
Qed.

(** *** Lengths *)

Lemma as_float64_length s v :
  as_float64 s = inr v -> length v = series_len s.
Proof. destruct s; cbn; intros [= <-]; by rewrite ?length_fmap. Qed.

Lemma truediv_length s c v :
  truediv s c = inr v -> length v = series_len s.
Proof.
  unfold truediv. intros (w & Hw & [= <-])%bind_inr.
  rewrite length_fmap. by apply as_float64_length.
Qed.

Lemma times_length s c v :
  times s c = inr v -> length v = series_len s.
Proof.
  unfold times. intros (w & Hw & [= <-])%bind_inr.
  rewrite length_fmap. by apply as_float64_length.
Qed.

Lemma rsub_length k s s' :
  rsub k s = inr s' -> series_len s' = series_len s.
Proof. destruct s; cbn; intros [= <-]; simpl; by rewrite length_fmap. Qed.

Lemma risk_score_expr_length d n xs :
  rectangular d n -> risk_score_expr d = inr xs -> length xs = n.
Proof.
  intros Hn. unfold risk_score_expr.
  intros (mp & Hmp%getitem_inr & H)%bind_inr.
  apply bind_inr in H as (t1 & Ht1%truediv_length & H).
  apply bind_inr in H as (cu & Hcu%getitem_inr & H).
  apply bind_inr in H as (t2 & Ht2%times_length & H).
  apply bind_inr in H as (cs & Hcs%getitem_inr & H).
  apply bind_inr in H as (g & Hg%rsub_length & H).
  apply bind_inr in H as (t3 & Ht3%truediv_length & H).
  apply bind_inr in H as (dti & Hdti%getitem_inr & H).
  apply bind_inr in H as (t4 & Ht4%times_length & [= <-]).
  apply Hn in Hmp, Hcu, Hcs, Hdti.
  unfold vadd, vtimes. rewrite !length_zip_with, !length_fmap. lia.
Qed.

Lemma scored_frame_rectangular d n xs :
  rectangular d n -> length xs = n -> rectangular (scored_frame d xs) n.
Proof.
  intros Hn Hl. unfold scored_frame, rectangular.
  apply map_Forall_insert_2; [by rewrite <- Hl; simpl; rewrite length_fmap|].
  by apply map_Forall_insert_2.
Qed.

End MaskTheory.

Section Failures.

Context {F : Type} {A : Arith F}.
Implicit Types (d : DataFrame F) (s : Series F).

Lemma truediv_numeric s c :
  numeric s = true -> exists v, truediv s c = inr v.
Proof. destruct s; try done; cbn; eauto. Qed.

Lemma times_numeric s c :
  numeric s = true -> exists v, times s c = inr v.
Proof. destruct s; try done; cbn; eauto. Qed.

Lemma rsub_numeric k s :
  numeric s = true -> exists s', rsub k s = inr s' /\ numeric s' = true.
Proof. destruct s; try done; cbn; eauto. Qed.

Lemma truediv_not_numeric s c :
  numeric s = false -> truediv s c = inl TypeError.
Proof. by destruct s. Qed.

Lemma times_not_numeric s c :
  numeric s = false -> times s c = inl TypeError.
Proof. by destruct s. Qed.

Lemma rsub_not_numeric k s :
  numeric s = false -> rsub k s = inl TypeError.
Proof. by destruct s. Qed.

Ltac red_bind := cbn [mbind err_bind ret mret err_ret raise].

(** The four columns are read and used from left to right; what the
    expression does at the first one that is absent or not numeric. *)
Lemma risk_score_expr_failure d pre k post :
  score_columns = pre ++ k :: post ->
  (forall k', k' ∈ pre -> exists s, d !! k' = Some s /\ numeric s = true) ->
  (d !! k = None -> risk_score_expr d = inl (KeyError k)) /\
  (forall s, d !! k = Some s -> numeric s = false ->
     risk_score_expr d = inl TypeError).
Proof.
  intros Hc Hpre. unfold risk_score_expr, getitem.
  destruct pre as [|k1 pre]; simpl in Hc.
  { injection Hc as <- _. split.
    - by intros ->.
    - intros s -> Hs. red_bind. by rewrite truediv_not_numeric. }
  injection Hc as <- Hc.
  destruct (Hpre "missed_payments") as (s1 & -> & N1); [by left|].
  destruct (truediv_numeric s1 (lit 6.0) N1) as [v1 E1].
  red_bind. rewrite E1. red_bind.
  destruct pre as [|k2 pre]; simpl in Hc.
  { injection Hc as <- _. split.
    - by intros ->.
    - intros s -> Hs. red_bind. by rewrite times_not_numeric. }
  injection Hc as <- Hc.
  destruct (Hpre "credit_utilization") as (s2 & -> & N2); [by right; left|].
  destruct (times_numeric s2 (lit 0.25) N2) as [v2 E2].
  red_bind. rewrite E2. red_bind.
  destruct pre as [|k3 pre]; simpl in Hc.
  { injection Hc as <- _. split.
    - by intros ->.
    - intros s -> Hs. red_bind. by rewrite rsub_not_numeric. }
  injection Hc as <- Hc.
  destruct (Hpre "credit_score") as (s3 & -> & N3); [by right; right; left|].
  destruct (rsub_numeric 850 s3 N3) as (g & E3 & Ng).
  destruct (truediv_numeric g (lit 850.0) Ng) as [v3 E3'].
  red_bind. rewrite E3. red_bind. rewrite E3'. red_bind.
  destruct pre as [|k4 pre]; simpl in Hc.
  { injection Hc as <- _. split.
    - by intros ->.
    - intros s -> Hs. red_bind. by rewrite times_not_numeric. }
  injection Hc as _ Hc. by destruct pre.
Qed.

(** Every error of the expression comes from one of the four columns. *)
Lemma risk_score_expr_inl d e :
  risk_score_expr d = inl e ->
  exists k, k ∈ score_columns /\
    ((d !! k = None /\ e = KeyError k) \/
     (exists s, d !! k = Some s /\ numeric s = false /\ e = TypeError)).
Proof.
  unfold risk_score_expr, getitem.
  destruct (d !! "missed_payments") as [s1|] eqn:E1;
    [|intros [= <-]; exists "missed_payments"; split;
       [apply in_score_columns; auto|by left]].
  destruct (numeric s1) eqn:N1;
    [|red_bind; rewrite truediv_not_numeric by done; intros [= <-];
      exists "missed_payments"; split;
       [apply in_score_columns; auto|right; eauto]].
  destruct (truediv_numeric s1 (lit 6.0) N1) as [v1 R1].
  red_bind. rewrite R1. red_bind.
  destruct (d !! "credit_utilization") as [s2|] eqn:E2;
    [|intros [= <-]; exists "credit_utilization"; split;
       [apply in_score_columns; auto|by left]].
  destruct (numeric s2) eqn:N2;
    [|red_bind; rewrite times_not_numeric by done; intros [= <-];
      exists "credit_utilization"; split;
       [apply in_score_columns; auto|right; eauto]].
  destruct (times_numeric s2 (lit 0.25) N2) as [v2 R2].
  red_bind. rewrite R2. red_bind.
  destruct (d !! "credit_score") as [s3|] eqn:E3;
    [|intros [= <-]; exists "credit_score"; split;
       [apply in_score_columns; auto|by left]].
  destruct (numeric s3) eqn:N3;
    [|red_bind; rewrite rsub_not_numeric by done; intros [= <-];
      exists "credit_score"; split;
       [apply in_score_columns; auto|right; eauto]].
  destruct (rsub_numeric 850 s3 N3) as (g & R3 & Ng).
  destruct (truediv_numeric g (lit 850.0) Ng) as [v3 R3'].
  red_bind. rewrite R3. red_bind. rewrite R3'. red_bind.
  destruct (d !! "debt_to_income_ratio") as [s4|] eqn:E4;
    [|intros [= <-]; exists "debt_to_income_ratio"; split;
       [apply in_score_columns; auto|by left]].
  destruct (numeric s4) eqn:N4;
    [|red_bind; rewrite times_not_numeric by done; intros [= <-];
      exists "debt_to_income_ratio"; split;
       [apply in_score_columns; auto 6|right; eauto]].
  destruct (times_numeric s4 (lit 0.20) N4) as [v4 R4].
  red_bind. rewrite R4. red_bind. done.
Qed.

Lemma calculate_risk_score_failure (self : EDA F) d e :
  df self = Some d -> risk_score_expr d = inl e ->
  calculate_risk_score self = inl e.
Proof.
  intros Hd He. unfold calculate_risk_score, set_risk_score.
  by rewrite Hd, He.
Qed.

End Failures.

Section FailureProperties.

Context {F : Type} {A : Arith F}.
Implicit Types (d : DataFrame F) (s : Series F).

(** X3. What [calculate_risk_score] raises first.  Before [load_data] has
    run ([self.df] is [None]) it raises a TypeError.  On a frame, the
    columns are used in the order missed_payments, credit_utilization,
    credit_score, debt_to_income_ratio: when the columns before [k] are
    present and numeric, an absent [k] raises the KeyError of [k], and a
    [k] of strings or categories (with at least one row) a TypeError,
    whatever the columns after [k] hold. *)
Theorem first_failing_column (self : EDA F) :
  (df self = None -> calculate_risk_score self = inl TypeError) /\
  forall d pre k post,
    df self = Some d ->
    score_columns = pre ++ k :: post ->
    (forall k', k' ∈ pre -> exists s, d !! k' = Some s /\ numeric s = true) ->
    (d !! k = None -> calculate_risk_score self = inl (KeyError k)) /\
    (forall s, d !! k = Some s -> numeric s = false ->
       series_len s <> 0%nat ->
       calculate_risk_score self = inl TypeError).
Proof.
  split.
  - intros H. unfold calculate_risk_score. by rewrite H.
  - intros d pre k post Hd Hc Hpre.
    destruct (risk_score_expr_failure d pre k post Hc Hpre) as [H1 H2].
    split.
    + intros Hk. apply (calculate_risk_score_failure self d); [done|].
      by apply H1.
    + intros s Hs Hn _. apply (calculate_risk_score_failure self d); [done|].
      by apply (H2 s).
Qed.

(** X4. [calculate_risk_score] raises nothing else.  On a loaded frame
    with at least one row and bins that [pd.cut] accepts, every error of
    the method is the KeyError of an absent column of the four, or the
    TypeError of one of the four that is not numeric; [pd.cut] never
    rejects the scores, and no other column can make the method fail. *)
Theorem scoring_raises_only (self : EDA F) d n e :
  bins_accepted ->
  df self = Some d -> rectangular d n -> (0 < n)%nat ->
  calculate_risk_score self = inl e ->
  exists k, k ∈ score_columns /\
    ((d !! k = None /\ e = KeyError k) \/
     (exists s, d !! k = Some s /\ numeric s = false /\ e = TypeError)).
Proof.
  intros Hb Hd _ _. unfold calculate_risk_score. rewrite Hd.
  unfold set_risk_score.
  destruct (risk_score_expr d) as [e'|xs] eqn:E.
  - cbn. intros [= <-]. by apply risk_score_expr_inl.
  - cbn. unfold set_risk_tier, getitem, setitem.
    rewrite lookup_insert_eq. cbn. by rewrite cut_tiers.
Qed.

(** X5. Scoring keeps the frame rectangular: on a frame whose columns all
    have [n] rows, the frame the method leaves has [n] rows in every
    column, the two new ones included, and its columns are those it had
    and [risk_score] and [risk_tier]. *)
Theorem scoring_keeps_row_count (self self' : EDA F) d n :
  df self = Some d -> rectangular d n ->
  calculate_risk_score self = inr self' ->
  exists d',
    df self' = Some d' /\ rectangular d' n /\
    dom d' = dom d ∪ {["risk_score"; "risk_tier"]} /\
    forall k, k <> "risk_score" -> k <> "risk_tier" -> d' !! k = d !! k.
Proof.
  intros Hd Hn (d0 & xs & Hd0 & Hxs & ->)%calculate_risk_score_inv.
  rewrite Hd in Hd0. injection Hd0 as <-.
  exists (scored_frame d xs). split; [done|]. split; [|split].
  - apply scored_frame_rectangular; [done|].
    by apply (risk_score_expr_length d).
  - unfold scored_frame. rewrite !dom_insert_L. apply set_eq. intros k.
    rewrite !elem_of_union. tauto.
  - intros k H1 H2. unfold scored_frame. by rewrite !lookup_insert_ne.
Qed.

End FailureProperties.

Section Binary64Report.

Open Scope float_scope.
Implicit Types (d : DataFrame float) (s a b x : float).

(** A score is HIGH exactly in (0.70, 1.0]. *)
Lemma high_iff s :
  assign_risk_tier s = Some "HIGH"%string <->
  (0.70 <? s) = true /\ (s <=? 1.0) = true.
Proof.
  unfold assign_risk_tier. rewrite tier_code_binary64. split.
  - destruct (is_nan s) eqn:Hn; [done|].
    destruct (1.0 <? s) eqn:H1; [done|].
    destruct (0.70 <? s) eqn:H2.
    + intros _. split; [done|]. by apply F64.not_ltb_leb.
    + destruct (0.30 <? s); [done|]. by destruct (0 <? s).
  - intros [Hlo Hhi]. destruct (F64.ltb_not_nan _ _ Hlo) as [_ ->].
    by rewrite (F64.leb_not_ltb _ _ Hhi), Hlo.
Qed.

(** Nothing is above infinity. *)
Lemma ltb_infinity x : (infinity <? x) = false.
Proof.
  apply not_true_iff_false. rewrite F64.ltb_key.
  intros (k1 & k2 & H1 & H2 & H). vm_compute in H1. injection H1 as <-.
  unfold Binary64.fkey in H2.
  destruct (Prim2SF x) as [[]|[]| |[] m e]; simpl in H2; simplify_eq;
    simpl in H; lia.
Qed.

Lemma income_bins_binary64 :
  income_bins = [0; 30000; 80000; 150000; infinity].
Proof. vm_compute. reflexivity. Qed.

(** [pd.cut] on the income bins, as a decision list. *)
Lemma income_code_binary64 x :
  income_code x =
    if is_nan x then None
    else if 150000 <? x then Some 3%nat
    else if 80000 <? x then Some 2%nat
    else if 30000 <? x then Some 1%nat
    else if 0 <? x then Some 0%nat
    else None.
Proof.
  unfold income_code, cut_code. cbn [isna binary64].
  destruct (is_nan x) eqn:Hn; [reflexivity|].
  rewrite income_bins_binary64, !searchsorted_left_cons.
  unfold np_less. cbn [isna ltb binary64]. rewrite Hn. cbn [andb].
  rewrite !orb_false_r, ltb_infinity.
  assert (H1 : (150000 <? x) = true -> (80000 <? x) = true)
    by (apply F64.ltb_trans; vm_compute; reflexivity).
  assert (H2 : (80000 <? x) = true -> (30000 <? x) = true)
    by (apply F64.ltb_trans; vm_compute; reflexivity).
  assert (H3 : (30000 <? x) = true -> (0 <? x) = true)
    by (apply F64.ltb_trans; vm_compute; reflexivity).
  destruct (150000 <? x); [rewrite H1, H2, H3 by auto; reflexivity|].
  destruct (80000 <? x); [rewrite H2, H3 by auto; reflexivity|].
  destruct (30000 <? x); [rewrite H3 by auto; reflexivity|].
  destruct (0 <? x); reflexivity.
Qed.

(** The income step at one row: with a numeric [income] column it returns,
    and the new cell of a row is the bracket of its income. *)
Lemma set_income_bracket_cell d (sr : Series float) i x :
  d !! "income" = Some sr -> numeric sr = true ->
  row d i !! "income" ≫= to_float = Some x ->
  exists d',
    set_income_bracket d = inr d' /\
    row d' i !! "income_bracket" = Some (CCat (income_bracket x)).
Proof.
  intros Hd Hs Hx. unfold set_income_bracket, getitem. rewrite Hd.
  destruct (proj1 (as_float64_numeric sr) Hs) as [v Hv].
  exists (<["income_bracket" := CatS (income_code <$> v) income_labels]> d).
  split.
  - unfold cut. cbn. rewrite Hv. reflexivity.
  - rewrite row_lookup, lookup_insert_eq. cbn.
    rewrite list_lookup_fmap, (as_float64_lookup _ _ i Hv).
    rewrite row_lookup, Hd in Hx. cbn in Hx. by rewrite Hx.
Qed.

(** X6. The income brackets of the report follow half-open intervals: an
    income in (0, 30000] is '<30K', one in (30000, 80000] is '30K-80K',
    one in (80000, 150000] is '80K-150K' and every income above 150000,
    infinity included, is '>150K'; the upper edge belongs to the bracket,
    so exactly 30000 is still '<30K' and exactly 150000 is '80K-150K'.
    The same holds of the column the report writes: on a frame with a
    numeric [income] column the step returns, and the [income_bracket]
    cell of a row whose income lies in one of the intervals is the label
    of that interval. *)
Theorem income_bracket_intervals :
  (forall x,
     ((0 <? x) = true -> (x <=? 30000) = true ->
        income_bracket x = Some "<30K"%string) /\
     ((30000 <? x) = true -> (x <=? 80000) = true ->
        income_bracket x = Some "30K-80K"%string) /\
     ((80000 <? x) = true -> (x <=? 150000) = true ->
        income_bracket x = Some "80K-150K"%string) /\
     ((150000 <? x) = true -> income_bracket x = Some ">150K"%string)) /\
  (forall d (sr : Series float) i x,
     d !! "income" = Some sr -> numeric sr = true ->
     row d i !! "income" ≫= to_float = Some x ->
     exists d',
       set_income_bracket d = inr d' /\
       ((0 <? x) = true -> (x <=? 30000) = true ->
          row d' i !! "income_bracket" = Some (CCat (Some "<30K"%string))) /\
       ((30000 <? x) = true -> (x <=? 80000) = true ->
          row d' i !! "income_bracket" = Some (CCat (Some "30K-80K"%string))) /\
       ((80000 <? x) = true -> (x <=? 150000) = true ->
          row d' i !! "income_bracket" = Some (CCat (Some "80K-150K"%string))) /\
       ((150000 <? x) = true ->
          row d' i !! "income_bracket" = Some (CCat (Some ">150K"%string)))) /\
  income_bracket 30000 = Some "<30K"%string /\
  income_bracket 150000 = Some "80K-150K"%string /\
  income_bracket infinity = Some ">150K"%string.
Proof.
  assert (Hv : forall x,
     ((0 <? x) = true -> (x <=? 30000) = true ->
        income_bracket x = Some "<30K"%string) /\
     ((30000 <? x) = true -> (x <=? 80000) = true ->
        income_bracket x = Some "30K-80K"%string) /\
     ((80000 <? x) = true -> (x <=? 150000) = true ->
        income_bracket x = Some "80K-150K"%string) /\
     ((150000 <? x) = true -> income_bracket x = Some ">150K"%string)).
  { intros x. unfold income_bracket. rewrite income_code_binary64.
    repeat split; intros Hlo; try intros Hhi;
      destruct (F64.ltb_not_nan _ _ Hlo) as [_ ->].
    - rewrite (leb_below 30000 150000), (leb_below 30000 80000),
        (F64.leb_not_ltb _ _ Hhi), Hlo by done. reflexivity.
    - rewrite (leb_below 80000 150000), (F64.leb_not_ltb _ _ Hhi), Hlo by done.
      reflexivity.
    - rewrite (F64.leb_not_ltb _ _ Hhi), Hlo. reflexivity.
    - rewrite Hlo. reflexivity. }
  split; [exact Hv|]. split; [|by vm_compute].
  intros d sr i x Hd Hs Hx.
  destruct (set_income_bracket_cell d sr i x Hd Hs Hx) as (d' & Hrun & Hcell).
  exists d'. split; [exact Hrun|]. rewrite Hcell.
  destruct (Hv x) as (H1 & H2 & H3 & H4).
  repeat split; intros Hlo; try intros Hhi.
  - by rewrite H1.
  - by rewrite H2.
  - by rewrite H3.
  - by rewrite H4.
Qed.

(** X7. An income gets no bracket exactly when it is not above zero: NaN,
    zero and every negative income are left out of the income table
    without an error, and every income above zero is in a bracket.  On a
    frame with a numeric [income] column the report's step returns, and
    the [income_bracket] cell of a row is NaN exactly when the income of
    the row is not above zero. *)
Theorem income_bracket_missing (x : float) :
  (income_bracket x = None <-> (0 <? x) = false) /\
  (forall d (sr : Series float) i,
     d !! "income" = Some sr -> numeric sr = true ->
     row d i !! "income" ≫= to_float = Some x ->
     exists d',
       set_income_bracket d = inr d' /\
       (row d' i !! "income_bracket" = Some (CCat None) <->
        (0 <? x) = false)) /\
  income_bracket 0 = None /\ income_bracket (-1) = None /\
  income_bracket nan = None.
Proof.
  assert (Hv : income_bracket x = None <-> (0 <? x) = false).
  { unfold income_bracket. rewrite income_code_binary64.
    assert (H1 : (150000 <? x) = true -> (80000 <? x) = true)
      by (apply F64.ltb_trans; vm_compute; reflexivity).
    assert (H2 : (80000 <? x) = true -> (30000 <? x) = true)
      by (apply F64.ltb_trans; vm_compute; reflexivity).
    assert (H3 : (30000 <? x) = true -> (0 <? x) = true)
      by (apply F64.ltb_trans; vm_compute; reflexivity).
    destruct (is_nan x) eqn:Hn.
    { split; [intros _|done]. apply not_true_iff_false.
      intros [_ H]%F64.ltb_not_nan. congruence. }
    destruct (150000 <? x); [rewrite H3 by auto; done|].
    destruct (80000 <? x); [rewrite H3 by auto; done|].
    destruct (30000 <? x); [rewrite H3 by auto; done|].
    by destruct (0 <? x). }
  split; [exact Hv|]. split; [|by vm_compute].
  intros d sr i Hd Hs Hx.
  destruct (set_income_bracket_cell d sr i x Hd Hs Hx) as (d' & Hrun & Hcell).
  exists d'. split; [exact Hrun|]. rewrite Hcell, <- Hv. split.
  - by intros [= ->].
  - by intros ->.
Qed.

(** X8. The bracket never goes down when the income goes up: for incomes
    [a <= b] that both have a bracket, the rank of the bracket of [a] in
    the order of the labels is at most that of [b]. *)
Theorem income_bracket_is_monotone a b (la lb : string) :
  (a <=? b) = true ->
  income_bracket a = Some la ->
  income_bracket b = Some lb ->
  exists ra rb,
    bracket_rank la = Some ra /\ bracket_rank lb = Some rb /\ (ra <= rb)%nat.
Proof.
  intros Hab. unfold income_bracket. rewrite !income_code_binary64.
  assert (Hup : forall c, (c <? a) = true -> (c <? b) = true)
    by (intros c Hc; exact (F64.ltb_leb_trans _ _ _ Hc Hab)).
  destruct (is_nan a); [done|]. destruct (is_nan b); [done|].
  destruct (150000 <? a) eqn:A1.
  { rewrite (Hup _ A1). intros [= <-] [= <-]. by exists 3%nat, 3%nat. }
  destruct (80000 <? a) eqn:A2.
  { rewrite (Hup _ A2). intros [= <-].
    destruct (150000 <? b); intros [= <-];
      [exists 2%nat, 3%nat|exists 2%nat, 2%nat]; repeat split; lia. }
  destruct (30000 <? a) eqn:A3.
  { rewrite (Hup _ A3). intros [= <-].
    destruct (150000 <? b); [|destruct (80000 <? b)]; intros [= <-];
      [exists 1%nat, 3%nat|exists 1%nat, 2%nat|exists 1%nat, 1%nat];
      repeat split; lia. }
  destruct (0 <? a) eqn:A4; [|done].
  rewrite (Hup _ A4). intros [= <-].
  destruct (150000 <? b); [|destruct (80000 <? b); [|destruct (30000 <? b)]];
    intros [= <-];
    [exists 0%nat, 3%nat|exists 0%nat, 2%nat|exists 0%nat, 1%nat
    |exists 0%nat, 0%nat]; repeat split; lia.
Qed.

(** X9. The income step of the report on a frame.  Without an [income]
    column it raises the KeyError of [income].  With a numeric [income]
    column it returns the frame with the one column [income_bracket]
    written and every other column as it was; the new column holds at
    each row the bracket of the income of that row, and the frame stays
    rectangular. *)
Theorem income_bracket_column d :
  (d !! "income" = None ->
     set_income_bracket d = inl (KeyError "income")) /\
  (forall sr, d !! "income" = Some sr -> numeric sr = true ->
     exists d',
       set_income_bracket d = inr d' /\
       (forall k, k <> "income_bracket"%string -> d' !! k = d !! k) /\
       (forall i, row d' i !! "income_bracket"
                  = (row d i !! "income" ≫= to_float) ≫=
                      (fun x => Some (CCat (income_bracket x)))) /\
       (forall n, rectangular d n -> rectangular d' n)).
Proof.
  unfold set_income_bracket, getitem. split.
  - by intros ->.
  - intros sr Hd Hs. rewrite Hd.
    destruct (proj1 (as_float64_numeric sr) Hs) as [v Hv].
    exists (<["income_bracket" := CatS (income_code <$> v) income_labels]> d).
    split; [|split; [|split]].
    + unfold cut. cbn. rewrite Hv. reflexivity.
    + intros k Hk. by rewrite lookup_insert_ne.
    + intros i. rewrite !row_lookup, lookup_insert_eq, Hd. cbn.
      rewrite list_lookup_fmap, (as_float64_lookup _ _ i Hv).
      by destruct (cell_at sr i ≫= to_float).
    + intros n Hn. apply map_Forall_insert_2; [|done]. simpl.
      rewrite length_fmap, (as_float64_length _ _ Hv).
      by apply (Hn "income"%string).
Qed.

(** X10. The high-risk profile of the report, after scoring: the frame
    [high_risk] holds, in their order, the whole records of the customers
    whose score lies in (0.70, 1.0], and nothing else; a customer whose
    score is above 1.0 is not in it.  Its number of rows is the number of
    scores with tier HIGH. *)
Theorem high_risk_profile_rows (self self' : EDA float) :
  calculate_risk_score self = inr self' ->
  exists d' hr idx xs,
    df self' = Some d' /\
    high_risk d' = inr hr /\
    d' !! "risk_score" = Some (FloatS xs) /\
    StronglySorted lt idx /\
    (forall i, i ∈ idx <->
       exists s, row d' i !! "risk_score" = Some (CFloat s) /\
         (0.70 <? s) = true /\ (s <=? 1.0) = true) /\
    (forall j, row hr j = from_option (row d') ∅ (idx !! j)) /\
    length idx = tier_count xs (Some "HIGH"%string).
Proof.
  intros (d & xs & Hd & Hxs & Hd' & Hs & Ht)%calculate_risk_score_columns.
  set (mask := eq_scalar (CatS (tier_code <$> xs) tier_labels : Series float)
                 "HIGH").
  exists (scored_frame d xs), (getitem_mask (scored_frame d xs) mask),
    (true_positions mask), xs.
  split; [done|]. split; [|split; [done|split; [|split; [|split]]]].
  - unfold high_risk, getitem. by rewrite Ht.
  - apply true_positions_sorted.
  - intros i. rewrite elem_of_true_positions, row_lookup, Hs.
    unfold mask. cbn. rewrite !list_lookup_fmap.
    destruct (xs !! i) as [x|]; cbn.
    + fold (assign_risk_tier x). split.
      * intros [= H%bool_decide_eq_true]. exists x. split; [done|].
        by apply high_iff.
      * intros (s & [= <-] & H). f_equal. apply bool_decide_eq_true.
        by apply high_iff.
    + split; [done|]. by intros (s & ? & _).
  - intros j. apply row_getitem_mask.
  - unfold mask, tier_count. cbn. rewrite <- list_fmap_compose.
    rewrite length_true_positions. f_equal.
    apply list_filter_iff. intros x. cbn.
    rewrite bool_decide_eq_true. done.
Qed.

End Binary64Report.

Section OverviewProperties.

Context {F : Type} {A : Arith F}.
Implicit Types (d : DataFrame F) (s : Series F).

Lemma missing_table_lookup d k :
  missing_table d !! k
  = s ← d !! k;
    if decide (0 < missing_count s)%nat
    then Some (Z.of_nat (missing_count s),
               (of_int (Z.of_nat (missing_count s))
                  ⊘ of_int (Z.of_nat (nrows d))) ⊗ of_int 100)
    else None.
Proof.
  unfold missing_table. rewrite map_lookup_filter, lookup_fmap.
  destruct (d !! k) as [s|]; [|done]. cbn.
  destruct (decide (0 < missing_count s)%nat);
    case_guard; try done; simpl in *; lia.
Qed.

Lemma count_missing_tiers (xs : list F) :
  missing_count (CatS (tier_code <$> xs) tier_labels : Series F)
  = tier_count xs None.
Proof.
  unfold missing_count, tier_count. cbn [isnull]. rewrite <- list_fmap_compose.
  induction xs as [|x xs IH]; [done|]. cbn [fmap list_fmap].
  rewrite !filter_cons. cbn.
  destruct (decide (assign_risk_tier x = None)) as [E|E].
  - apply assign_risk_tier_None in E. rewrite E.
    rewrite decide_True by (by apply bool_decide_eq_true).
    simpl. by rewrite IH.
  - rewrite decide_False; [done|].
    intros H%bool_decide_eq_true. by apply E, assign_risk_tier_None.
Qed.

Lemma count_missing_scores (xs : list F) :
  (missing_count (FloatS xs) <= tier_count xs None)%nat.
Proof.
  unfold missing_count, tier_count. cbn [isnull].
  induction xs as [|x xs IH]; [done|]. cbn [fmap list_fmap].
  rewrite !filter_cons.
  destruct (decide (isna x = true)) as [E|E].
  - rewrite decide_True; [simpl; lia|].
    unfold assign_risk_tier, tier_code, cut_code. by rewrite E.
  - case_decide; simpl; lia.
Qed.

(** X11. The missing values [data_overview] shows after scoring: the
    missing count of [risk_tier] is the number of customers without a
    tier, that is all customers less the HIGH, MEDIUM and LOW ones; the
    column is listed exactly when there is such a customer, and it has at
    least as many missing values as [risk_score]. *)
Theorem unclassified_are_missing_tiers (self self' : EDA F) :
  calculate_risk_score self = inr self' ->
  exists d' xs tiers,
    df self' = Some d' /\
    d' !! "risk_score" = Some (FloatS xs) /\
    d' !! "risk_tier" = Some tiers /\
    missing_count tiers = tier_count xs None /\
    (missing_count tiers
     = length xs - (tier_count xs (Some "HIGH") + tier_count xs (Some "MEDIUM")
                    + tier_count xs (Some "LOW")))%nat /\
    (missing_count (FloatS xs : Series F) <= missing_count tiers)%nat /\
    ((0 < tier_count xs None)%nat ->
       exists pct, missing_table d' !! "risk_tier"
                   = Some (Z.of_nat (tier_count xs None), pct)) /\
    (tier_count xs None = 0%nat -> missing_table d' !! "risk_tier" = None).
Proof.
  intros (d & xs & Hd & Hxs & Hd' & Hs & Ht)%calculate_risk_score_columns.
  exists (scored_frame d xs), xs, (CatS (tier_code <$> xs) tier_labels).
  split; [done|]. split; [done|]. split; [done|].
  pose proof (count_tiers_total xs) as Htot.
  rewrite count_missing_tiers.
  split; [done|]. split; [lia|]. split; [apply count_missing_scores|].
  rewrite missing_table_lookup, Ht. cbn -[missing_count].
  rewrite count_missing_tiers.
  split.
  - intros Hpos. rewrite decide_True by done. eauto.
  - intros ->. by rewrite decide_False by lia.
Qed.

End OverviewProperties.

(** ** The properties on the sample frames *)

Lemma risky_scored :
  { self1 | calculate_risk_score loaded_risky = inr self1 }.
Proof. eexists. vm_compute. reflexivity. Defined.

Lemma rectangular_sample : rectangular sample 5.
Proof.
  unfold rectangular, sample.
  repeat (apply map_Forall_insert_2; [reflexivity|]).
  apply map_Forall_empty.
Qed.

Lemma tier_breakdown_counts_witness :
  exists self' d' codes xs,
    calculate_risk_score loaded = inr self' /\
    df self' = Some d' /\
    d' !! "risk_score" = Some (FloatS xs) /\
    d' !! "risk_tier" = Some (CatS codes tier_labels) /\
    tier_breakdown (value_counts codes tier_labels)
    = [("HIGH", tier_count xs (Some "HIGH"));
       ("MEDIUM", tier_count xs (Some "MEDIUM"));
       ("LOW", tier_count xs (Some "LOW"))] /\
    (tier_count xs (Some "HIGH") + tier_count xs (Some "MEDIUM")
     + tier_count xs (Some "LOW") + tier_count xs None)%nat
    = length xs /\
    tier_breakdown (value_counts codes tier_labels)
    = [("HIGH", 1%nat); ("MEDIUM", 1%nat); ("LOW", 0%nat)].
Proof.
  pose proof (proj2_sig sample_scored) as H1.
  destruct (tier_breakdown_counts loaded _ H1)
    as (d' & codes & xs & Hd' & Hs & Ht & Hb & Hn).
  exists (proj1_sig sample_scored), d', codes, xs.
  split; [exact H1|]. split; [exact Hd'|]. split; [exact Hs|].
  split; [exact Ht|]. split; [exact Hb|]. split; [exact Hn|].
  assert (E : df (proj1_sig sample_scored) ≫= (fun d => d !! "risk_tier")
              = Some (CatS [Some 2; Some 1; None; None; None]%nat tier_labels))
    by (vm_compute; reflexivity).
  rewrite Hd' in E. simpl in E. rewrite Ht in E. injection E as ->.
  vm_compute. reflexivity.
Defined.

Lemma bar_colours_follow_counts_witness :
  exists self' d' codes,
    calculate_risk_score loaded_risky = inr self' /\
    df self' = Some d' /\
    d' !! "risk_tier" = Some (CatS codes tier_labels) /\
    risk_bars (value_counts codes tier_labels)
    = [("HIGH", 2%nat, "green"); ("LOW", 1%nat, "orange");
       ("MEDIUM", 0%nat, "red")].
Proof.
  pose proof (proj2_sig risky_scored) as H1.
  destruct (bar_colours_follow_counts loaded_risky _ H1)
    as (d' & codes & t1 & c1 & t2 & c2 & t3 & c3 & Hd' & Ht & Hb & Hle & Hp).
  exists (proj1_sig risky_scored), d', codes.
  split; [exact H1|]. split; [exact Hd'|]. split; [exact Ht|].
  assert (E : df (proj1_sig risky_scored) ≫= (fun d => d !! "risk_tier")
              = Some (CatS [Some 2; Some 2; Some 0]%nat tier_labels))
    by (vm_compute; reflexivity).
  rewrite Hd' in E. simpl in E. rewrite Ht in E. injection E as ->.
  vm_compute. reflexivity.
Defined.

Lemma first_failing_column_witness :
  calculate_risk_score {| df := None; stdout := [] |}
  = (inl TypeError : M (EDA float)) /\
  calculate_risk_score {| df := Some sample_no_credit_score; stdout := [] |}
  = inl (KeyError "credit_score") /\
  calculate_risk_score
    {| df := Some (<["credit_utilization" := ObjS ["a"; "b"; "c"; "d"; "e"]]>
                     sample_no_credit_score);
       stdout := [] |}
  = inl TypeError.
Proof.
  split; [|split].
  - apply (proj1 (first_failing_column {| df := None; stdout := [] |})).
    reflexivity.
  - refine (proj1 (proj2 (first_failing_column
                            {| df := Some sample_no_credit_score;
                               stdout := [] |})
                     sample_no_credit_score
                     ["missed_payments"; "credit_utilization"]
                     "credit_score" ["debt_to_income_ratio"]
                     eq_refl eq_refl _) _).
    + intros k' Hk. rewrite !elem_of_cons, elem_of_nil in Hk.
      destruct Hk as [->|[->|[]]]; eexists; split; vm_compute; reflexivity.
    + vm_compute. reflexivity.
  - refine (proj2 (proj2 (first_failing_column
                            {| df := Some (<["credit_utilization" :=
                                              ObjS ["a"; "b"; "c"; "d"; "e"]]>
                                             sample_no_credit_score);
                               stdout := [] |})
                     _ ["missed_payments"]
                     "credit_utilization"
                     ["credit_score"; "debt_to_income_ratio"]
                     eq_refl eq_refl _)
              (ObjS ["a"; "b"; "c"; "d"; "e"]) _ eq_refl _).
    + intros k' Hk. rewrite !elem_of_cons, elem_of_nil in Hk.
      destruct Hk as [->|[]]; eexists; split; vm_compute; reflexivity.
    + vm_compute. reflexivity.
    + simpl. lia.
Defined.

Lemma scoring_raises_only_witness :
  exists k, k ∈ score_columns /\
    ((sample_no_credit_score !! k = None /\
      KeyError "credit_score" = KeyError k) \/
     (exists s, sample_no_credit_score !! k = Some s /\ numeric s = false /\
        KeyError "credit_score" = TypeError)).
Proof.
  refine (scoring_raises_only
            {| df := Some sample_no_credit_score; stdout := [] |}
            sample_no_credit_score 5 (KeyError "credit_score")
            bins_accepted_binary64 eq_refl _ _ _).
  - apply map_Forall_delete, rectangular_sample.
  - lia.
  - vm_compute. reflexivity.
Defined.

Lemma scoring_keeps_row_count_witness :
  exists self' d',
    calculate_risk_score loaded = inr self' /\
    df self' = Some d' /\ rectangular d' 5 /\
    dom d' = dom sample ∪ {["risk_score"; "risk_tier"]} /\
    d' !! "customer_id" = sample !! "customer_id".
Proof.
  pose proof (proj2_sig sample_scored) as H1.
  destruct (scoring_keeps_row_count loaded _ sample 5 eq_refl
              rectangular_sample H1) as (d' & Hd' & Hr & Hdom & Hk).
  exists (proj1_sig sample_scored), d'. repeat split; try assumption.
  by apply Hk.
Defined.

Lemma income_bracket_intervals_witness :
  income_bracket 18000%float = Some "<30K" /\
  income_bracket 52000%float = Some "30K-80K" /\
  income_bracket 120000%float = Some "80K-150K" /\
  income_bracket 210000%float = Some ">150K" /\
  (exists d',
     set_income_bracket sample = inr d' /\
     row d' 0 !! "income_bracket" = Some (CCat (Some "30K-80K"))) /\
  (exists d',
     set_income_bracket sample_risky = inr d' /\
     row d' 2 !! "income_bracket" = Some (CCat (Some ">150K"))).
Proof.
  destruct income_bracket_intervals as (H & Hcol & _).
  split; [|split; [|split; [|split; [|split]]]].
  - apply (H 18000%float); vm_compute; reflexivity.
  - apply (H 52000%float); vm_compute; reflexivity.
  - apply (H 120000%float); vm_compute; reflexivity.
  - apply (H 210000%float); vm_compute; reflexivity.
  - assert (Hi : sample !! "income"
                 = Some (FloatS [52000; nan; 31000; 120000; 18000]%float))
      by (vm_compute; reflexivity).
    assert (Hx : row sample 0 !! "income" ≫= to_float = Some 52000%float)
      by (vm_compute; reflexivity).
    destruct (Hcol sample _ 0%nat 52000%float Hi eq_refl Hx)
      as (d' & Hrun & _ & H2 & _).
    exists d'. split; [exact Hrun|]. apply H2; vm_compute; reflexivity.
  - assert (Hi : sample_risky !! "income"
                 = Some (FloatS [25000; 0; 210000]%float))
      by (vm_compute; reflexivity).
    assert (Hx : row sample_risky 2 !! "income" ≫= to_float
                 = Some 210000%float)
      by (vm_compute; reflexivity).
    destruct (Hcol sample_risky _ 2%nat 210000%float Hi eq_refl Hx)
      as (d' & Hrun & _ & _ & _ & H4).
    exists d'. split; [exact Hrun|]. apply H4; vm_compute; reflexivity.
Defined.

Lemma income_bracket_missing_witness :
  (exists d',
     set_income_bracket sample_risky = inr d' /\
     row d' 1 !! "income_bracket" = Some (CCat None)) /\
  (exists d',
     set_income_bracket sample = inr d' /\
     row d' 1 !! "income_bracket" = Some (CCat None)).
Proof.
  split.
  - assert (Hi : sample_risky !! "income"
                 = Some (FloatS [25000; 0; 210000]%float))
      by (vm_compute; reflexivity).
    assert (Hx : row sample_risky 1 !! "income" ≫= to_float = Some 0%float)
      by (vm_compute; reflexivity).
    destruct (proj1 (proj2 (income_bracket_missing 0%float))
                sample_risky _ 1%nat Hi eq_refl Hx) as (d' & Hrun & Hiff).
    exists d'. split; [exact Hrun|]. apply Hiff. vm_compute. reflexivity.
  - assert (Hi : sample !! "income"
                 = Some (FloatS [52000; nan; 31000; 120000; 18000]%float))
      by (vm_compute; reflexivity).
    assert (Hx : row sample 1 !! "income" ≫= to_float = Some nan)
      by (vm_compute; reflexivity).
    destruct (proj1 (proj2 (income_bracket_missing nan))
                sample _ 1%nat Hi eq_refl Hx) as (d' & Hrun & Hiff).
    exists d'. split; [exact Hrun|]. apply Hiff. vm_compute. reflexivity.
Defined.

Lemma income_bracket_is_monotone_witness :
  exists ra rb,
    bracket_rank "<30K" = Some ra /\ bracket_rank ">150K" = Some rb /\
    (ra <= rb)%nat.
Proof.
  apply (income_bracket_is_monotone 30000%float 150000.5%float);
    vm_compute; reflexivity.
Defined.

Lemma income_bracket_column_witness :
  set_income_bracket (delete "income" sample) = inl (KeyError "income") /\
  exists d',
    set_income_bracket sample = inr d' /\
    d' !! "income" = sample !! "income" /\
    row d' 0 !! "income_bracket" = Some (CCat (Some "30K-80K")) /\
    row d' 1 !! "income_bracket" = Some (CCat None) /\
    row d' 4 !! "income_bracket" = Some (CCat (Some "<30K")) /\
    rectangular d' 5.
Proof.
  split.
  - apply (proj1 (income_bracket_column _)). vm_compute. reflexivity.
  - assert (Hi : sample !! "income"
                 = Some (FloatS [52000; nan; 31000; 120000; 18000]%float))
      by (vm_compute; reflexivity).
    destruct (proj2 (income_bracket_column sample) _ Hi eq_refl)
      as (d' & Hrun & Hk & Hrow & Hr).
    exists d'. split; [exact Hrun|]. split; [by apply Hk|].
    rewrite !Hrow. repeat split; try (vm_compute; reflexivity).
    apply Hr, rectangular_sample.
Defined.

Lemma high_risk_profile_rows_witness :
  exists self' d' hr idx xs,
    calculate_risk_score loaded = inr self' /\ df self' = Some d' /\
    high_risk d' = inr hr /\
    d' !! "risk_score" = Some (FloatS xs) /\
    StronglySorted lt idx /\
    (forall i, i ∈ idx <->
       exists s, row d' i !! "risk_score" = Some (CFloat s) /\
         (0.70 <? s)%float = true /\ (s <=? 1.0)%float = true) /\
    (forall j, row hr j = from_option (row d') ∅ (idx !! j)) /\
    length idx = tier_count xs (Some "HIGH") /\
    row hr 0 !! "customer_id" = Some (CStr "C001") /\
    row hr 1 !! "customer_id" = None /\
    row d' 4 !! "risk_score" = Some (CFloat 1.5%float).
Proof.
  pose proof (proj2_sig sample_scored) as H1.
  destruct (high_risk_profile_rows loaded _ H1)
    as (d' & hr & idx & xs & Hd' & Hhr & Hs & Hso & Hin & Hrows & Hlen).
  exists (proj1_sig sample_scored), d', hr, idx, xs.
  split; [exact H1|]. split; [exact Hd'|]. split; [exact Hhr|].
  split; [exact Hs|]. split; [exact Hso|]. split; [exact Hin|].
  split; [exact Hrows|]. split; [exact Hlen|].
  assert (E : match df (proj1_sig sample_scored) with
              | Some d =>
                  match high_risk d with
                  | inr h =>
                      Some (row h 0 !! "customer_id", row h 1 !! "customer_id",
                            row d 4 !! "risk_score")
                  | inl _ => None
                  end
              | None => None
              end
              = Some (Some (CStr "C001"), None, Some (CFloat 1.5%float)))
    by (vm_compute; reflexivity).
  rewrite Hd', Hhr in E. injection E as -> -> ->. repeat split.
Defined.

Lemma unclassified_are_missing_tiers_witness :
  exists self' d' xs tiers pct,
    calculate_risk_score loaded = inr self' /\
    df self' = Some d' /\
    d' !! "risk_score" = Some (FloatS xs) /\
    d' !! "risk_tier" = Some tiers /\
    missing_count tiers = 3%nat /\
    missing_count (FloatS xs : Series float) = 1%nat /\
    missing_table d' !! "risk_tier" = Some (3%Z, pct).
Proof.
  pose proof (proj2_sig sample_scored) as H1.
  destruct (unclassified_are_missing_tiers loaded _ H1)
    as (d' & xs & tiers & Hd' & Hs & Ht & Hn & _ & _ & Hl & _).
  assert (E : match df (proj1_sig sample_scored) ≫=
                      (fun d => d !! "risk_score") with
              | Some (FloatS v) =>
                  Some (tier_count v None,
                        missing_count (FloatS v : Series float))
              | _ => None
              end = Some (3%nat, 1%nat))
    by (vm_compute; reflexivity).
  rewrite Hd' in E. simpl in E. rewrite Hs in E. injection E as Hc Hm.
  rewrite Hc in Hl, Hn. destruct Hl as [pct Hp]; [lia|].
  exists (proj1_sig sample_scored), d', xs, tiers, pct.
  split; [exact H1|]. split; [exact Hd'|]. split; [exact Hs|].
  split; [exact Ht|]. split; [exact Hn|]. split; [exact Hm|exact Hp].
Defined.
